(** * Gabhil: annotation extraction and Markdown rendering

    A shallow embedding of [gabhil.py] (class [AnnotationExtractor] and its
    data classes) together with the properties of its rendering pipeline.

    Conventions of the embedding.
    - A Python [str] is the list of its Unicode code points ([list N]);
      [len] is [length], concatenation is [++].
    - A Python [dict] from strings to strings ([Config.color_map]) is a
      [gmap]; the insertion-ordered dictionary [groups] built by
      [group_and_dump], whose iteration order matters, is an association
      list.
    - A call that can raise returns a [result]; the exception classes that
      occur are enumerated in [exn].
    - What the program takes from the interpreter and the platform, the
      attributes an object has besides its fields and the encodings of
      the output streams, is a parameter [rt : Runtime] of the functions
      that depend on it.
    - [_format_annotation] assigns to [a.text]; it is embedded as a function
      that returns the formatted string together with the annotation as it
      is after the call. *)

From Stdlib Require Import Strings.String Strings.Ascii NArith.
From stdpp Require Import gmap list sorting.

Local Open Scope N_scope.
Local Open Scope nat_scope.

(** ** Python strings *)

Abbreviation str := (list N).

(** A string literal of the source, as code points. *)
Definition py (s : string) : str := map N_of_ascii (list_ascii_of_string s).
Arguments py s%_string : simpl never.

(** The line feed character, written ["\n"] in the source. *)
Definition nl : str := [10%N].

(** [bool(s)] for a string: the empty string is falsy. *)
Definition truthy (s : str) : bool :=
  match s with [] => false | _ :: _ => true end.

(** [c.isspace()], the characters [str.split()] and [str.strip()] treat as
    white space (CPython's [_PyUnicode_IsWhitespace]). *)
Definition isspace (c : N) : bool :=
  ((9 <=? c) && (c <=? 13) ||
   (28 <=? c) && (c <=? 32) ||
   (c =? 133) || (c =? 160) || (c =? 5760) ||
   (8192 <=? c) && (c <=? 8202) ||
   (c =? 8232) || (c =? 8233) || (c =? 8239) || (c =? 8287) ||
   (c =? 12288))%N.

(** Puts [c] in front of the first word of [ws]. *)
Definition cons_word (c : N) (ws : list str) : list str :=
  match ws with
  | [] => [[c]]
  | w :: ws' => (c :: w) :: ws'
  end.

(** [s.split()]: the maximal runs of characters that are not white space. *)
Fixpoint split (s : str) : list str :=
  match s with
  | [] => []
  | c :: s' =>
      if isspace c then split s'
      else match s' with
           | [] => [[c]]
           | c' :: _ => if isspace c' then [c] :: split s'
                        else cons_word c (split s')
           end
  end.

(** [sep.join(ws)]. *)
Fixpoint join (sep : str) (ws : list str) : str :=
  match ws with
  | [] => []
  | [w] => w
  | w :: ws' => w ++ sep ++ join sep ws'
  end.

(** [s.lstrip()], [s.rstrip()] and [s.strip()]. *)
Fixpoint lstrip (s : str) : str :=
  match s with
  | [] => []
  | c :: s' => if isspace c then lstrip s' else s
  end.

Definition rstrip (s : str) : str := reverse (lstrip (reverse s)).

Definition strip (s : str) : str := rstrip (lstrip s).

(** [s.split("\n")[0]]: the text before the first line feed. *)
Fixpoint first_line (s : str) : str :=
  match s with
  | [] => []
  | c :: s' => if (c =? 10)%N then [] else c :: first_line s'
  end.

(** ["#" * n]. *)
Definition hashes (n : nat) : str := replicate n 35%N.

(** Comparison of strings, [s <= t] in Python: lexicographic on the code
    points. *)
Fixpoint str_leb (s t : str) : bool :=
  match s, t with
  | [], _ => true
  | _ :: _, [] => false
  | c :: s', d :: t' =>
      if (c <? d)%N then true
      else if (c =? d)%N then str_leb s' t' else false
  end.

Definition str_ltb (s t : str) : bool := negb (str_leb t s).

(** ** Results of calls that may raise *)

Inductive exn : Type :=
  | IndexError
  | AttributeError
  | TypeError
  | UnicodeEncodeError.

Inductive result (A : Type) : Type :=
  | Ok (a : A)
  | Raise (e : exn).
Arguments Ok {A} a.
Arguments Raise {A} e.

Global Instance result_ret : MRet result := @Ok.

Global Instance result_bind : MBind result := λ A B k r,
  match r with
  | Ok a => k a
  | Raise e => Raise e
  end.

Global Instance result_fmap : FMap result := λ A B f r,
  match r with
  | Ok a => Ok (f a)
  | Raise e => Raise e
  end.

(** ** Data classes *)

(** [group_by] is declared a string but [generate_markdown] also accepts a
    list of keys. *)
Inductive group_by_value : Type :=
  | KeyStr (k : str)
  | KeyList (ks : list str).

Record Config : Type := mkConfig {
  include_metadata : bool;
  append_file : bool;
  include_date_in_notes : bool;
  include_chapter_in_notes : bool;
  group_by : group_by_value;
  color_map : gmap str str;
  join_titles : bool;
  dump_stdout : bool;
  html_parser : str
}.

(** The defaults of the data class. *)
Definition default_config : Config :=
  {| include_metadata := true;
     append_file := false;
     include_date_in_notes := false;
     include_chapter_in_notes := false;
     group_by := KeyStr (py "all");
     color_map := ∅;
     join_titles := true;
     dump_stdout := false;
     html_parser := py "html.parser" |}.

Record EmailConfig : Type := mkEmailConfig {
  login : str;
  server : str;
  passwd : str;
  subject : str
}.

Record Annotation : Type := mkAnnotation {
  date : str;
  chapter : str;
  color : str;
  text : str;
  note : str
}.

(** [a.text = t]. *)
Definition set_text (a : Annotation) (t : str) : Annotation :=
  {| date := date a; chapter := chapter a; color := color a;
     text := t; note := note a |}.

(** [imported] holds a [datetime]; only its rendering by [str()] is used,
    and that is what the record keeps. *)
Record MetaData : Type := mkMetaData {
  title : str;
  author : str;
  source : str;
  imported : str
}.

(** [MetaData()] with no field supplied, at time [now]. *)
Definition default_metadata (now : str) : MetaData :=
  {| title := py "Untitled"; author := py "Unkown";
     source := py "Unspecified"; imported := now |}.

(** ** The line formatter *)

Definition heading_tokens : list str :=
  [py "#"; py "##"; py "###"; py "####"].

(** [_format_annotation(a, indent)]: the formatted block and [a] as the call
    leaves it. *)
Definition _format_annotation (cfg : Config) (a : Annotation) (indent : str)
  : str * Annotation :=
  let prefix := default [] (color_map cfg !! color a) in
  let a := if bool_decide (prefix ∈ heading_tokens) && join_titles cfg
           then set_text a (join (py " ") (split (text a)))
           else a in
  let prefix := if truthy prefix then prefix ++ py " " else prefix in
  let fmtd := indent ++ py "- " ++ prefix ++ text a in
  let fmtd := if include_chapter_in_notes cfg
              then fmtd ++ py " (Chapter '" ++ chapter a ++ py "')"
              else fmtd in
  let fmtd := if include_date_in_notes cfg
              then fmtd ++ py "(" ++ date a ++ py ")"
              else fmtd in
  let fmtd := if truthy (note a)
              then
                let note_icon := default [] (color_map cfg !! py "note") in
                let note_icon := if truthy note_icon
                                 then note_icon ++ py " " else note_icon in
                fmtd ++ nl ++ indent ++ py "    - " ++ note_icon ++ note a
              else fmtd in
  (fmtd, a).

(** ** The grouping renderer *)

(** What [group_and_dump] can observe of the value of an attribute of an
    annotation: whether the values of two annotations can be compared by
    [<] (the key of [sorted]), whether a value can be hashed (the key of
    the dictionary [groups]), and the text [str] gives for it (the
    heading).
    - [Field]: a string that belongs to the annotation, as the five
      fields of the data class;
    - [Constant]: a value of the class that orders and hashes, the same
      for every annotation, as the string [__doc__] or [__module__];
    - [Unordered]: a value that hashes, but for which [<] raises
      [TypeError], as the class [__class__] or the [None] of [__hash__];
    - [Unhashable]: a value that cannot be the key of a dictionary, as
      the dictionary [__dict__]. *)
Inductive attribute : Type :=
  | Field (value : Annotation → str)
  | Constant (shown : str)
  | Unordered (shown : Annotation → str)
  | Unhashable.

(** The interpreter and the platform, as far as the program depends on
    them: the attributes an [Annotation] has besides its five fields
    (those of its class and of [object]), and the strings the encoding of
    a text file and the one of [stdout] can encode. A string of ASCII
    characters is encoded by every encoding (see [is_ascii]). *)
Record Runtime : Type := mkRuntime {
  object_attr : str → option attribute;
  file_encodes : str → bool;
  stdout_encodes : str → bool
}.

(** [a < b] is defined for the values of the attribute. *)
Definition orderable (attr : attribute) : bool :=
  match attr with
  | Field _ | Constant _ => true
  | Unordered _ | Unhashable => false
  end.

(** [hash(v)] is defined for the values of the attribute. *)
Definition hashable (attr : attribute) : bool :=
  match attr with
  | Unhashable => false
  | Field _ | Constant _ | Unordered _ => true
  end.

(** [str(getattr(a, name))], the text of the value in a heading. *)
Definition shown_of (attr : attribute) (a : Annotation) : str :=
  match attr with
  | Field value => value a
  | Constant shown => shown
  | Unordered shown => shown a
  | Unhashable => []
  end.

Section attributes.
Variable rt : Runtime.

(** [getattr(a, name)], by the kind of its value: the five fields of the
    data class [Annotation] are instance attributes, every other name is
    looked up in the class; [None] when the lookup raises
    [AttributeError]. *)
Definition getattr (name : str) : option attribute :=
  if decide (name = py "date") then Some (Field date)
  else if decide (name = py "chapter") then Some (Field chapter)
  else if decide (name = py "color") then Some (Field color)
  else if decide (name = py "text") then Some (Field text)
  else if decide (name = py "note") then Some (Field note)
  else object_attr rt name.

(** [hasattr(a, name)]: every annotation has the same attributes. *)
Definition hasattr (a : Annotation) (name : str) : bool :=
  match getattr name with Some _ => true | None => false end.
End attributes.

Section grouping.
Context {A : Type} (key : A → str).

(** Inserts [x] in front of the first element whose key is not below
    the key of [x]. *)
Fixpoint insert_by (x : A) (l : list A) : list A :=
  match l with
  | [] => [x]
  | y :: l' => if str_leb (key x) (key y) then x :: y :: l'
               else y :: insert_by x l'
  end.

(** [sorted(l, key=key)]: a stable sort, ascending on the key. *)
Fixpoint sorted (l : list A) : list A :=
  match l with
  | [] => []
  | x :: l' => insert_by x (sorted l')
  end.

(** [itertools.groupby(l, key=key)] with every group made a list: the
    maximal runs of consecutive elements with equal keys. *)
Fixpoint groupby (l : list A) : list (str * list A) :=
  match l with
  | [] => []
  | x :: l' =>
      match groupby l' with
      | (k, g) :: rest =>
          if decide (key x = k) then (k, x :: g) :: rest
          else (key x, [x]) :: (k, g) :: rest
      | [] => [(key x, [x])]
      end
  end.
End grouping.

(** [d[k] = v] on an insertion-ordered dictionary: an existing key keeps its
    position, a new key goes last. *)
Fixpoint dict_set {V : Type} (k : str) (v : V) (d : list (str * V))
  : list (str * V) :=
  match d with
  | [] => [(k, v)]
  | (k', v') :: d' =>
      if decide (k = k') then (k, v) :: d' else (k', v') :: dict_set k v d'
  end.

(** The dictionary [groups] after the first loop of [group_and_dump]. *)
Definition build_groups (key : Annotation → str) (annotations : list Annotation)
  : list (str * list Annotation) :=
  fold_left (λ groups kg, dict_set kg.1 kg.2 groups)
            (groupby key (sorted key annotations)) [].

(** The heading line of a group. *)
Definition heading (indent group : str) : str :=
  let level := (length indent / 4)%nat in
  let header := hashes (level + 1) in
  indent ++ py "- " ++ header ++ py " " ++ group.

Section renderer.
Variable rt : Runtime.

(** [group_and_dump(group_keys, annotations, indent)]. The test
    [hasattr(annotations[0], group_keys[0])] reads the first annotation and
    raises [IndexError] on an empty list. [sorted] compares the values of
    the key as soon as there are two annotations and raises [TypeError]
    when they do not order; [groups[k] = list(g)] raises [TypeError] when
    the value does not hash. The list is passed by value:
    [_format_annotation] changes an annotation only where its block is
    dumped, after every grouping that reads it, and nothing reads the
    annotations once the lines are returned. *)
Fixpoint group_and_dump (cfg : Config) (group_keys : list str)
    (annotations : list Annotation) (indent : str) : result (list str) :=
  let dump := Ok (map (λ a, (_format_annotation cfg a indent).1) annotations) in
  match group_keys with
  | [] => dump
  | k :: rest =>
      match annotations with
      | [] => Raise IndexError
      | a0 :: _ =>
          if hasattr rt a0 k then
            match getattr rt k with
            | None => dump
            | Some attr =>
                if negb (orderable attr) && (2 <=? length annotations) then
                  Raise TypeError
                else if negb (hashable attr) then Raise TypeError
                else
                  fold_left
                    (λ acc ga,
                       lines ← acc;
                       sub ← group_and_dump cfg rest ga.2
                               (indent ++ py "    ");
                       Ok (lines ++ [heading indent ga.1] ++ sub))
                    (build_groups (shown_of attr) annotations) (Ok [])
            end
          else dump
      end
  end.

(** ** The document assembler *)

(** The double quote character of the metadata lines. *)
Definition dq : str := [34%N].

(** [generate_markdown(metadata, annotations)]; [None] is the bare [return]
    taken on an empty list. *)
Definition generate_markdown (cfg : Config) (metadata : MetaData)
    (annotations : list Annotation) : result (option str) :=
  match annotations with
  | [] => Ok None
  | _ :: _ =>
      let lines :=
        if include_metadata cfg then
          [py "- title:: " ++ dq ++ title metadata ++ dq;
           py "  author:: " ++ dq ++ author metadata ++ dq;
           py "  source:: " ++ dq ++ source metadata ++ dq;
           py "  imported:: " ++ imported metadata]
        else [] in
      let group_keys :=
        match group_by cfg with
        | KeyStr k => [k]
        | KeyList ks => ks
        end in
      out ← group_and_dump cfg group_keys annotations [];
      Ok (Some (join nl (lines ++ out)))
  end.
End renderer.

(** ** The annotation parser *)

(** What [_extract_annotation] reads of one element of class "annotation":
    for each [find(class_=...)] the [.text] of the element found, [None]
    when there is none; for the selection marker its [class] attribute. *)
Record AnnotationElem : Type := mkAnnotationElem {
  annotationdate : option str;
  annotationchapter : option str;
  annotationselectionMarker : option (list str);
  annotationrepresentativetext : option str;
  annotationnote : option str
}.

(** What [_extract_annotations_from_html] reads of the document that
    [BeautifulSoup] returns: the elements of class "annotation" in document
    order and the [.text] of [soup.h1], [soup.h2] and of the element of
    class "citation". *)
Record Soup : Type := mkSoup {
  annotation_elems : list AnnotationElem;
  h1 : option str;
  h2 : option str;
  citation : option str
}.

(** [e.find(...).text]: an attribute read on [None] raises. *)
Definition text_of (found : option str) : result str :=
  match found with
  | Some t => Ok t
  | None => Raise AttributeError
  end.

(** [classes[-1]]. *)
Definition last_class (classes : list str) : result str :=
  match last classes with
  | Some c => Ok c
  | None => Raise IndexError
  end.

Definition _extract_annotation (e : AnnotationElem) : result Annotation :=
  date ← strip <$> text_of (annotationdate e);
  chapter ← strip <$> text_of (annotationchapter e);
  color ← match annotationselectionMarker e with
          | Some classes => last_class classes
          | None => Raise AttributeError
          end;
  text ← strip <$> text_of (annotationrepresentativetext e);
  note ← strip <$> text_of (annotationnote e);
  Ok (mkAnnotation date chapter color text note).

Definition extract_if_not_none (elem : option str) : str :=
  match elem with
  | Some t => strip t
  | None => py "Not specified"
  end.

(** [_extract_annotations_from_html(html)], from the parsed document;
    [now] is the rendering of [datetime.now()] at the call. *)
Definition _extract_annotations_from_html (soup : Soup) (now : str)
  : result (MetaData * list Annotation) :=
  result ← mapM _extract_annotation (annotation_elems soup);
  let title := extract_if_not_none (h1 soup) in
  let author := extract_if_not_none (h2 soup) in
  let ref := extract_if_not_none (citation soup) in
  let ref := if decide (ref ≠ py "Not specified")
             then strip (first_line ref) else ref in
  Ok ({| title := title; author := author; source := ref; imported := now |},
      result).

(** ** Output and the message loop *)

(** The part of the world the program writes: what was printed, one entry
    per call of [print], and the text files by name. The working directory
    is taken to be writable: [open] succeeds. *)
Record World : Type := mkWorld {
  stdout : list str;
  files : gmap str str
}.

(** A string of ASCII characters; every encoding Python takes for a text
    stream encodes these. *)
Definition is_ascii (s : str) : bool := forallb (λ c, (c <? 128)%N) s.

Definition print (s : str) (w : World) : World :=
  {| stdout := stdout w ++ [s]; files := files w |}.

(** [open(fname, mode)] followed by writes: mode "w" starts from an empty
    file, mode "a" from the present contents (empty if there is none). *)
Definition open_file (append : bool) (fname : str) (w : World) : World :=
  {| stdout := stdout w;
     files := if append then <[fname := default [] (files w !! fname)]> (files w)
              else <[fname := []]> (files w) |}.

Definition write_file (fname data : str) (w : World) : World :=
  {| stdout := stdout w;
     files := <[fname := default [] (files w !! fname) ++ data]> (files w) |}.

Section output.
Variable rt : Runtime.

(** [sanitize] of the package [sanitize_filename]. *)
Variable sanitize : str → str.

(** [repr] of a string, the [!r] of a formatted string literal. *)
Variable repr : str → str.

(** [print(s)]: raises [UnicodeEncodeError], with nothing printed, when
    the encoding of [stdout] has no bytes for [s]. *)
Definition print_text (s : str) (w : World) : World * result () :=
  if is_ascii s || stdout_encodes rt s then (print s w, Ok ())
  else (w, Raise UnicodeEncodeError).

(** [f.write(s)]: raises [UnicodeEncodeError], with nothing written, when
    the encoding of the file has no bytes for [s]. *)
Definition write_text (fname s : str) (w : World) : World * result () :=
  if is_ascii s || file_encodes rt s then (write_file fname s w, Ok ())
  else (w, Raise UnicodeEncodeError).

(** [dump_markdown(md, fname)], with [md] possibly [None]: [print(None)]
    prints [None], [f.write(None)] raises [TypeError] once the file is
    open; the [with] statement closes the file on the way out, so that
    what was written before an exception stays in the file. *)
Definition dump_markdown (cfg : Config) (md : option str) (fname : str)
    (w : World) : World * result () :=
  if dump_stdout cfg then
    print_text (default (py "None") md) w
  else
    let fname := sanitize fname in
    let w := open_file (append_file cfg) fname w in
    let w := if append_file cfg then write_file fname nl w else w in
    match md with
    | None => (w, Raise TypeError)
    | Some md =>
        match write_text fname md w with
        | (w, Ok _) => print_text (py "Annotations written in " ++ fname) w
        | (w, Raise e) => (w, Raise e)
        end
    end.

(** The loop of [process_emails] over the messages found, each given by
    its parsed HTML part and the time of its processing. An exception
    leaves the loop. *)
Fixpoint process_messages (cfg : Config) (messages : list (Soup * str))
    (w : World) : World * result () :=
  match messages with
  | [] => (w, Ok ())
  | (soup, now) :: messages' =>
      match _extract_annotations_from_html soup now with
      | Raise e => (w, Raise e)
      | Ok (metadata, annotations) =>
          match generate_markdown rt cfg metadata annotations with
          | Raise e => (w, Raise e)
          | Ok md =>
              let fname := title metadata ++ py "-" ++ author metadata
                           ++ py "-Notes.md" in
              match dump_markdown cfg md fname w with
              | (w', Ok _) => process_messages cfg messages' w'
              | (w', Raise e) => (w', Raise e)
              end
          end
      end
  end.

(** [process_emails()] from the result of the search on: [messages] are
    the messages of [id_list], fetched and parsed. Connecting to the
    server and searching it are not modelled. *)
Definition process_emails (email_cfg : EmailConfig) (cfg : Config)
    (messages : list (Soup * str)) (w : World) : World * result () :=
  match messages with
  | [] =>
      match
        print_text (py "You don't have any email in your inbox whose subject contains "
                      ++ repr (subject email_cfg)) w
      with
      | (w, Ok _) =>
          print_text (py "You may need to change that string in the configuration file") w
      | (w, Raise e) => (w, Raise e)
      end
  | _ :: _ => process_messages cfg messages w
  end.
End output.

(** ** Definitions used to state the properties *)

(** A string without line feed. *)
Definition single_line (s : str) : Prop := 10%N ∉ s.

(** The number of text lines of a string: one more than its line feeds. *)
Definition nlines (s : str) : nat := S (length (filter (λ c, c = 10%N) s)).

(** Strict order of strings. *)
Definition str_lt (s t : str) : Prop := str_ltb s t = true.

(** Every run of white space that is followed by another character becomes
    one space, a run at the end disappears. *)
Fixpoint squeeze (s : str) : str :=
  match s with
  | [] => []
  | c :: s' =>
      if isspace c then
        match s' with
        | [] => []
        | c' :: _ => if isspace c' then squeeze s' else 32%N :: squeeze s'
        end
      else c :: squeeze s'
  end.

(** The text with the white space at its ends removed and every run of
    white space inside it replaced by a single space. *)
Definition collapse_whitespace (s : str) : str := squeeze (lstrip s).

(** What [_format_annotation] puts after the text: the chapter and date
    decorations. *)
Definition decorations (cfg : Config) (a : Annotation) : str :=
  (if include_chapter_in_notes cfg
   then py " (Chapter '" ++ chapter a ++ py "')" else [])
  ++ (if include_date_in_notes cfg then py "(" ++ date a ++ py ")" else []).

(** The note icon with its space, empty without an icon. *)
Definition note_icon_part (cfg : Config) : str :=
  match color_map cfg !! py "note" with
  | Some (c :: icon) => (c :: icon) ++ py " "
  | _ => []
  end.

(** The second line of a block, for a non-empty note. *)
Definition note_line (cfg : Config) (a : Annotation) (indent : str) : str :=
  (indent ++ py "    ") ++ py "- " ++ note_icon_part cfg ++ note a.

(** [a.note = n]. *)
Definition set_note (a : Annotation) (n : str) : Annotation :=
  {| date := date a; chapter := chapter a; color := color a;
     text := text a; note := n |}.

(** Lines of a formatted block as the line count takes them: one, and
    one more for a note. *)
Definition block_lines (a : Annotation) : nat :=
  if truthy (note a) then 2 else 1.

(** The items of an outline: the block of an annotation or the heading of
    a group value, each at its indent. *)
Inductive item : Type :=
  | Block (a : Annotation) (indent : str)
  | Heading (value : str) (indent : str).

(** The line of an item. *)
Definition render (cfg : Config) (it : item) : str :=
  match it with
  | Block a indent => (_format_annotation cfg a indent).1
  | Heading v indent => heading indent v
  end.

Definition item_lines (it : item) : nat :=
  match it with
  | Block a _ => block_lines a
  | Heading _ _ => 1
  end.

(** The annotations of the blocks of an outline, in order. *)
Definition blocks (its : list item) : list Annotation :=
  omap (λ it, match it with Block a _ => Some a | Heading _ _ => None end) its.

(** The number of headings of an outline. *)
Definition headings (its : list item) : nat :=
  length (omap (λ it, match it with Heading v _ => Some v | Block _ _ => None end)
               its).

(** The keys of the groups of [sorted] and [groupby], in their order. *)
Definition group_values {A} (key : A → str) (l : list A) : list str :=
  (groupby key (sorted key l)).*1.

(** The outline [group_and_dump] renders: under each value of the first
    key the outline of the annotations with that value, four spaces
    deeper; no grouping from the first key on that is not an attribute. *)
Fixpoint outline (rt : Runtime) (group_keys : list str)
    (annotations : list Annotation) (indent : str) : list item :=
  let leaf := (λ a, Block a indent) <$> annotations in
  match group_keys with
  | [] => leaf
  | k :: rest =>
      match getattr rt k with
      | None => leaf
      | Some attr =>
          mjoin ((λ v, Heading v indent
                       :: outline rt rest
                            (filter (λ a, shown_of attr a = v) annotations)
                            (indent ++ py "    "))
                 <$> group_values (shown_of attr) annotations)
      end
  end.

(** One heading for each distinct value of the first key, and within each
    of these groups one for each distinct value of the next key, as long as
    the keys are attributes. *)
Fixpoint heading_count (rt : Runtime) (group_keys : list str)
    (annotations : list Annotation) : nat :=
  match group_keys with
  | [] => 0
  | k :: rest =>
      match getattr rt k with
      | None => 0
      | Some attr =>
          sum_list_with
            (λ v, S (heading_count rt rest
                       (filter (λ a, shown_of attr a = v) annotations)))
            (remove_dups (shown_of attr <$> annotations))
      end
  end.

(** A key [sorted] can take: not an attribute at all, or an attribute
    whose values order, as the five fields do. *)
Definition orders_key (rt : Runtime) (k : str) : Prop :=
  ∀ attr, getattr rt k = Some attr → orderable attr = true.

(** The key list of a configuration: [group_by] or, when it is a string,
    the list of that string. *)
Definition group_keys_of (cfg : Config) : list str :=
  match group_by cfg with
  | KeyStr k => [k]
  | KeyList ks => ks
  end.

(** A word: not empty and without white space. *)
Definition word (w : str) : Prop :=
  w ≠ [] ∧ Forall (λ c, isspace c = false) w.

(** The marker of an annotation, [color_map.get(a.color, "")]. *)
Definition marker (cfg : Config) (a : Annotation) : str :=
  default [] (color_map cfg !! color a).

(** The marker with its space, empty without a marker. *)
Definition marker_part (cfg : Config) (a : Annotation) : str :=
  if truthy (marker cfg a) then marker cfg a ++ py " " else [].

(** What a note adds to a block: a line feed and the note line. *)
Definition note_part (cfg : Config) (a : Annotation) (indent : str) : str :=
  if truthy (note a) then nl ++ note_line cfg a indent else [].

(** [x] does not come after [y] in the order of the keys. *)
Definition key_le {A} (key : A → str) (x y : A) : Prop :=
  str_leb (key x) (key y) = true.

(** ** The configuration file *)

(** [is_comment(line)] of [read_pseudo_json]:
    [line.lstrip().startswith("#")]. *)
Definition is_comment (line : str) : bool :=
  match lstrip line with
  | c :: _ => (c =? 35)%N
  | [] => false
  end.

Section configuration.
(** The values [json.loads] returns. *)
Variable Json : Type.

(** [json.loads]: the value decoded, or the text of the [JSONDecodeError]
    raised. *)
Variable json_loads : str → str + Json.

(** [read_pseudo_json(filename)], from the lines the iteration over the
    open file gives, [None] when the file cannot be opened ([OSError]).
    The result is what is printed and the configuration returned, [None]
    when the program quits. *)
Definition read_pseudo_json (file : option (list str))
  : list str * option Json :=
  match file with
  | None => ([py "You must have a file named .get_annotations.cfg"], None)
  | Some lines =>
      let data := join nl (filter (λ line, is_comment line = false) lines) in
      match json_loads data with
      | inr config => ([], Some config)
      | inl e =>
          ([py "The json in .get_annotations.cfg is not valid"; e], None)
      end
  end.
End configuration.

(** ** Further definitions used to state properties *)

(** A string with no white space at its ends. *)
Definition stripped (s : str) : Prop :=
  match head s with Some c => isspace c = false | None => True end ∧
  match last s with Some c => isspace c = false | None => True end.

(** [" " * n]. *)
Definition spaces (n : nat) : str := replicate n 32%N.

(** The configuration with the metadata block switched off. *)
Definition without_metadata (cfg : Config) : Config :=
  {| include_metadata := false;
     append_file := append_file cfg;
     include_date_in_notes := include_date_in_notes cfg;
     include_chapter_in_notes := include_chapter_in_notes cfg;
     group_by := group_by cfg;
     color_map := color_map cfg;
     join_titles := join_titles cfg;
     dump_stdout := dump_stdout cfg;
     html_parser := html_parser cfg |}.

(** The name [process_emails] gives the file of a message, before
    [sanitize]. *)
Definition notes_file (metadata : MetaData) : str :=
  title metadata ++ py "-" ++ author metadata ++ py "-Notes.md".

(** A well-formed element of class "annotation" and a broken one. *)
Definition sample_elem : AnnotationElem :=
  {| annotationdate := Some (py " 1 May ");
     annotationchapter := Some (py "One");
     annotationselectionMarker :=
       Some [py "annotationselectionMarker"; py "yellow"];
     annotationrepresentativetext := Some (nl ++ py "  The quick  " ++ nl);
     annotationnote := Some [] |}.

Definition broken_elem : AnnotationElem :=
  {| annotationdate := Some (py "1 May");
     annotationchapter := None;
     annotationselectionMarker :=
       Some [py "annotationselectionMarker"; py "yellow"];
     annotationrepresentativetext := Some (py "t");
     annotationnote := Some [] |}.

Definition sample_soup : Soup :=
  {| annotation_elems := [sample_elem];
     h1 := Some (py " A Book ");
     h2 := None;
     citation := Some (py " Excerpt from A Book" ++ nl ++ py "An Author ") |}.

(** ** Sample inputs *)

(** The attributes of CPython that the examples use: the docstring the
    decorator [dataclass] gives the class, the class itself and the
    dictionary of the instance. *)
Definition sample_attr (name : str) : option attribute :=
  if decide (name = py "__doc__") then
    Some (Constant
            (py "Annotation(date: str, chapter: str, color: str, text: str, note: str)"))
  else if decide (name = py "__class__") then
    Some (Unordered (λ _, py "<class '__main__.Annotation'>"))
  else if decide (name = py "__dict__") then Some Unhashable
  else None.

(** UTF-8 encodes every code point but the surrogates. *)
Definition utf8_encodes (s : str) : bool :=
  forallb (λ c, ((c <? 55296) || (57343 <? c) && (c <? 1114112))%N) s.

Definition sample_runtime : Runtime :=
  {| object_attr := sample_attr;
     file_encodes := utf8_encodes;
     stdout_encodes := utf8_encodes |}.

(** Latin-1 encodes the code points below 256. *)
Definition latin1_encodes (s : str) : bool := forallb (λ c, (c <? 256)%N) s.

(** The same interpreter where the encoding of the locale is Latin-1. *)
Definition latin1_runtime : Runtime :=
  {| object_attr := sample_attr;
     file_encodes := latin1_encodes;
     stdout_encodes := latin1_encodes |}.

(** A message of the same book whose highlight is the euro sign. *)
Definition euro_soup : Soup :=
  {| annotation_elems :=
       [{| annotationdate := Some (py "2 May");
           annotationchapter := Some (py "Two");
           annotationselectionMarker :=
             Some [py "annotationselectionMarker"; py "green"];
           annotationrepresentativetext := Some [8364%N];
           annotationnote := Some [] |}];
     h1 := Some (py "A Book");
     h2 := None;
     citation := None |}.

(** A color map with a heading token, a plain marker and a note icon. *)
Definition sample_colors : gmap str str :=
  {[ py "yellow" := py "##"; py "green" := py ">"; py "note" := py "N" ]}.

Definition sample_config : Config :=
  {| include_metadata := true;
     append_file := false;
     include_date_in_notes := false;
     include_chapter_in_notes := false;
     group_by := KeyList [py "chapter"; py "date"];
     color_map := sample_colors;
     join_titles := true;
     dump_stdout := false;
     html_parser := py "html.parser" |}.

(** The default configuration with the chapter decoration switched on. *)
Definition chapter_config : Config :=
  {| include_metadata := true;
     append_file := false;
     include_date_in_notes := false;
     include_chapter_in_notes := true;
     group_by := KeyStr (py "all");
     color_map := ∅;
     join_titles := true;
     dump_stdout := false;
     html_parser := py "html.parser" |}.

(** The default configuration with the output sent to [stdout]. *)
Definition stdout_config : Config :=
  {| include_metadata := true;
     append_file := false;
     include_date_in_notes := false;
     include_chapter_in_notes := false;
     group_by := KeyStr (py "all");
     color_map := ∅;
     join_titles := true;
     dump_stdout := true;
     html_parser := py "html.parser" |}.

(** The default configuration with an empty note icon. *)
Definition empty_icon_config : Config :=
  {| include_metadata := true;
     append_file := false;
     include_date_in_notes := false;
     include_chapter_in_notes := false;
     group_by := KeyStr (py "all");
     color_map := {[ py "note" := [] ]};
     join_titles := true;
     dump_stdout := false;
     html_parser := py "html.parser" |}.

(** A highlight of two lines, as in the example of the specification. *)
Definition quick_fox : str := py "The quick" ++ nl ++ py "brown fox".

Definition fox_green : Annotation :=
  {| date := py "1 May"; chapter := py "One"; color := py "green";
     text := quick_fox; note := [] |}.

Definition fox_yellow : Annotation :=
  {| date := py "2 May"; chapter := py "Two"; color := py "yellow";
     text := quick_fox; note := py "remember" |}.

Definition plain_note : Annotation :=
  {| date := py "1 May"; chapter := py "Two"; color := py "blue";
     text := py "t"; note := py "n" |}.

Definition no_note : Annotation :=
  {| date := py "1 May"; chapter := py "One"; color := py "blue";
     text := py "t"; note := [] |}.

(** * Properties *)

(** ** Strings *)

Section str_order.
Lemma str_leb_refl s : str_leb s s = true.
Proof.
  induction s as [|c s IH]; simpl; [done|].
  rewrite N.ltb_irrefl, N.eqb_refl. done.
Qed.

Lemma str_leb_total s t : str_leb s t = true ∨ str_leb t s = true.
Proof.
  revert t. induction s as [|c s IH]; intros [|d t]; simpl; auto.
  destruct (N.ltb_spec c d), (N.ltb_spec d c); auto; try lia.
  assert (c = d) as -> by lia. rewrite N.eqb_refl. apply IH.
Qed.

Lemma str_leb_antisym s t :
  str_leb s t = true → str_leb t s = true → s = t.
Proof.
  revert t. induction s as [|c s IH]; intros [|d t]; simpl; try done.
  destruct (N.ltb_spec c d), (N.ltb_spec d c); try lia; try done.
  - destruct (N.eqb_spec d c); [lia|done].
  - destruct (N.eqb_spec c d); [lia|done].
  - assert (c = d) as -> by lia. rewrite N.eqb_refl.
    intros. f_equal. by apply IH.
Qed.

Lemma str_leb_trans s t u :
  str_leb s t = true → str_leb t u = true → str_leb s u = true.
Proof.
  revert t u. induction s as [|c s IH]; intros [|d t] [|f u]; simpl; try done.
  destruct (N.ltb_spec c d), (N.ltb_spec d f), (N.ltb_spec c f);
    try done; try lia.
  - destruct (N.eqb_spec d f); [lia|done].
  - destruct (N.eqb_spec c d); [lia|done].
  - destruct (N.eqb_spec c d); [|done].
    destruct (N.eqb_spec d f); [|done].
    destruct (N.eqb_spec c f); [|lia]. apply IH.
Qed.

Lemma str_ltb_leb s t : str_ltb s t = true → str_leb s t = true.
Proof.
  unfold str_ltb. destruct (str_leb_total s t) as [E | E]; rewrite E; done.
Qed.

Lemma str_ltb_ne s t : str_ltb s t = true → s ≠ t.
Proof.
  unfold str_ltb. intros H ->. by rewrite str_leb_refl in H.
Qed.

Lemma str_leb_ne_ltb s t : str_leb s t = true → s ≠ t → str_ltb s t = true.
Proof.
  unfold str_ltb. intros Hle Hne.
  destruct (str_leb t s) eqn:E; [|done].
  destruct Hne. by apply str_leb_antisym.
Qed.

Global Instance str_lt_trans : Transitive str_lt.
Proof.
  unfold str_lt. intros s t u Hst Htu. apply str_leb_ne_ltb.
  - eapply str_leb_trans; by apply str_ltb_leb.
  - intros Heq. subst u. apply (str_ltb_ne _ _ Hst).
    apply str_leb_antisym; by apply str_ltb_leb.
Qed.
End str_order.

Section split_join.
Implicit Types (s w : str) (ws : list str) (c : N).

Lemma split_cons_nonspace c s :
  isspace c = false → ∃ w ws, split (c :: s) = (c :: w) :: ws.
Proof.
  revert c. induction s as [|c' s IH]; intros c Hc; simpl; rewrite Hc.
  - by exists [], [].
  - destruct (isspace c') eqn:Hc'.
    + by eexists [], _.
    + destruct (IH c' Hc') as (w & ws & E). simpl in E. rewrite Hc' in E.
      rewrite E. simpl. by eexists _, _.
Qed.

Lemma split_words s : Forall word (split s).
Proof.
  induction s as [|c s IH]; simpl; [constructor|].
  destruct (isspace c) eqn:Hc; [done|].
  destruct s as [|c' s'].
  - repeat constructor; done.
  - destruct (isspace c') eqn:Hc'.
    + constructor; [|done]. split; [done|]. by repeat constructor.
    + destruct (split (c' :: s')) as [|w ws] eqn:E; simpl.
      * repeat constructor; done.
      * inversion IH as [|?? [Hw1 Hw2] Hws]; subst.
        constructor; [|done]. split; [done|]. by constructor.
Qed.

Lemma split_word_app w s :
  word w → match s with [] => True | c :: _ => isspace c = true end →
  split (w ++ s) = w :: split s.
Proof.
  intros [Hne Hw] Hs. induction w as [|c w IH]; [done|].
  inversion Hw as [|?? Hc Hw']; subst. clear Hne.
  destruct w as [|c' w'].
  - simpl. rewrite Hc. destruct s as [|d s']; [done|]. by rewrite Hs.
  - inversion Hw' as [|?? Hc' _]; subst.
    change (split ((c :: c' :: w') ++ s))
      with (if isspace c then split ((c' :: w') ++ s)
            else if isspace c' then [c] :: split ((c' :: w') ++ s)
                 else cons_word c (split ((c' :: w') ++ s))).
    rewrite Hc, Hc', IH; done.
Qed.

Lemma split_join ws : Forall word ws → split (join (py " ") ws) = ws.
Proof.
  induction ws as [|w ws IH]; intros Hws; [done|].
  inversion Hws as [|?? Hw Hws']; subst.
  destruct ws as [|w2 ws'].
  - simpl. rewrite <-(app_nil_r w) at 1. by rewrite split_word_app.
  - change (join (py " ") (w :: w2 :: ws'))
      with (w ++ 32%N :: join (py " ") (w2 :: ws')).
    rewrite split_word_app; [|done|done].
    f_equal. change (split (join (py " ") (w2 :: ws')) = w2 :: ws').
    by apply IH.
Qed.

(** Joining the words of a text a second time changes nothing. *)
Lemma collapse_idemp s :
  join (py " ") (split (join (py " ") (split s))) = join (py " ") (split s).
Proof. by rewrite split_join by apply split_words. Qed.

Lemma squeeze_split s :
  squeeze s =
    match s with
    | [] => []
    | c :: _ =>
        if isspace c then
          match split s with
          | [] => []
          | _ :: _ => 32%N :: join (py " ") (split s)
          end
        else join (py " ") (split s)
    end.
Proof.
  induction s as [|c s IH]; [done|].
  destruct s as [|c' s'].
  - simpl. by destruct (isspace c).
  - change (squeeze (c :: c' :: s'))
      with (if isspace c then
              if isspace c' then squeeze (c' :: s')
              else 32%N :: squeeze (c' :: s')
            else c :: squeeze (c' :: s')).
    change (split (c :: c' :: s'))
      with (if isspace c then split (c' :: s')
            else if isspace c' then [c] :: split (c' :: s')
                 else cons_word c (split (c' :: s'))).
    rewrite IH. destruct (isspace c) eqn:Hc, (isspace c') eqn:Hc'; try done.
    + destruct (split_cons_nonspace c' s' Hc') as (w & ws & ->). done.
    + destruct (split (c' :: s')); done.
    + destruct (split_cons_nonspace c' s' Hc') as (w & ws & ->).
      by destruct ws.
Qed.

Lemma split_lstrip s : split (lstrip s) = split s.
Proof.
  induction s as [|c s IH]; [done|]. simpl.
  destruct (isspace c) eqn:Hc; [done|]. simpl. by rewrite Hc.
Qed.

(** [" ".join(s.split())] is the white space collapse of [s]. *)
Lemma join_split_collapse s :
  join (py " ") (split s) = collapse_whitespace s.
Proof.
  unfold collapse_whitespace. rewrite squeeze_split, <-split_lstrip.
  destruct (lstrip s) as [|c s'] eqn:E; [done|].
  assert (isspace c = false) as ->; [|done].
  clear -E. induction s as [|d s IH]; [done|]. simpl in E.
  destruct (isspace d) eqn:Hd; [by apply IH|]. by simplify_eq.
Qed.

Lemma join_split_single_line s : single_line (join (py " ") (split s)).
Proof.
  unfold single_line.
  assert (∀ ws, Forall word ws → 10%N ∉ join (py " ") ws) as H.
  { induction ws as [|w ws IH]; intros Hws; [set_solver|].
    inversion Hws as [|?? [_ Hw] Hws']; subst.
    assert (10%N ∉ w).
    { intros Hin. rewrite Forall_forall in Hw. by apply Hw in Hin. }
    destruct ws as [|w2 ws']; [done|].
    change (join (py " ") (w :: w2 :: ws'))
      with (w ++ 32%N :: join (py " ") (w2 :: ws')).
    rewrite elem_of_app, elem_of_cons. intros [?|[?|?]]; [done|done|].
    by apply IH. }
  apply H, split_words.
Qed.
End split_join.

(** ** The line formatter *)

Section formatter.
Implicit Types (cfg : Config) (a : Annotation) (indent s t : str).

Lemma note_icon_part_eq cfg :
  note_icon_part cfg =
    let note_icon := default [] (color_map cfg !! py "note") in
    if truthy note_icon then note_icon ++ py " " else note_icon.
Proof.
  unfold note_icon_part.
  destruct (color_map cfg !! py "note") as [[|c icon]|]; done.
Qed.

(** The annotation after the call. *)
Lemma format_annotation_snd cfg a indent :
  (_format_annotation cfg a indent).2 =
    if bool_decide (marker cfg a ∈ heading_tokens) && join_titles cfg
    then set_text a (join (py " ") (split (text a))) else a.
Proof. done. Qed.

(** The block is the text line, its decorations and the note part. *)
Lemma format_annotation_fst cfg a indent :
  (_format_annotation cfg a indent).1 =
    indent ++ py "- " ++ marker_part cfg a
      ++ text (_format_annotation cfg a indent).2
      ++ decorations cfg a ++ note_part cfg a indent.
Proof.
  rewrite format_annotation_snd.
  unfold _format_annotation, marker_part, decorations, note_part, note_line.
  fold (marker cfg a). rewrite note_icon_part_eq. cbv zeta.
  assert (∀ b : bool, note (if b then set_text a (join (py " ") (split (text a)))
                            else a) = note a) as Hn by (by intros []).
  assert (∀ b : bool, chapter (if b then set_text a (join (py " ") (split (text a)))
                            else a) = chapter a) as Hc by (by intros []).
  assert (∀ b : bool, date (if b then set_text a (join (py " ") (split (text a)))
                            else a) = date a) as Hd by (by intros []).
  rewrite Hn, Hc, Hd.
  change (py "    - ") with (py "    " ++ py "- ").
  destruct (marker cfg a) as [|c m]; simpl truthy; cbv iota;
    destruct (include_chapter_in_notes cfg), (include_date_in_notes cfg),
      (truthy (note a));
    cbn [fst]; rewrite ?app_nil_r, <-?app_assoc; done.
Qed.

Lemma nlines_app s t : nlines (s ++ t) = nlines s + nlines t - 1.
Proof. unfold nlines. rewrite filter_app, length_app. lia. Qed.

Lemma single_line_nlines s : single_line s → nlines s = 1.
Proof.
  unfold single_line, nlines. intros H.
  induction s as [|c s IH]; [done|].
  rewrite filter_cons. destruct (decide (c = 10%N)) as [->|]; [set_solver|].
  apply IH. set_solver.
Qed.

Lemma single_line_app s t : single_line (s ++ t) ↔ single_line s ∧ single_line t.
Proof. unfold single_line. rewrite elem_of_app. tauto. Qed.

Lemma single_line_py_dash : single_line (py "- ").
Proof. apply (bool_decide_unpack _). by vm_compute. Qed.

Lemma first_line_single s : single_line s → first_line s = s.
Proof.
  unfold single_line. induction s as [|c s IH]; [done|]. intros H. simpl.
  destruct (N.eqb_spec c 10) as [->|]; [set_solver|].
  f_equal. apply IH. set_solver.
Qed.

Lemma first_line_app_nl s t : single_line s → first_line (s ++ nl ++ t) = s.
Proof.
  unfold single_line. induction s as [|c s IH]; [done|]. intros H. simpl.
  destruct (N.eqb_spec c 10) as [->|]; [set_solver|].
  f_equal. apply IH. set_solver.
Qed.

End formatter.

Section formatter_changes.
Implicit Types (cfg : Config) (a : Annotation) (indent : str).

Lemma marker_format_annotation cfg a indent :
  marker cfg (_format_annotation cfg a indent).2 = marker cfg a.
Proof. rewrite format_annotation_snd. unfold marker. by case (_ && _). Qed.

Lemma format_annotation_set_note cfg a indent n :
  (_format_annotation cfg (set_note a n) indent).2
  = set_note (_format_annotation cfg a indent).2 n.
Proof.
  rewrite !format_annotation_snd.
  change (marker cfg (set_note a n)) with (marker cfg a).
  by case (_ && _).
Qed.
(** An annotation that was formatted before gives the block it would have
    given without that call, at any indent. *)
Lemma format_annotation_again cfg a indent indent' :
  _format_annotation cfg (_format_annotation cfg a indent).2 indent'
  = ((_format_annotation cfg a indent').1, (_format_annotation cfg a indent).2).
Proof.
  assert ((_format_annotation cfg (_format_annotation cfg a indent).2 indent').2
          = (_format_annotation cfg a indent).2) as Hsnd.
  { rewrite (format_annotation_snd cfg (_ cfg a indent).2).
    rewrite marker_format_annotation, format_annotation_snd.
    destruct (_ && _); [|done].
    unfold set_text; simpl. by rewrite collapse_idemp. }
  rewrite (surjective_pairing (_format_annotation cfg _ indent')), Hsnd.
  f_equal.
  rewrite (format_annotation_fst cfg (_ cfg a indent).2), Hsnd.
  rewrite (format_annotation_fst cfg a).
  rewrite !format_annotation_snd.
  unfold marker_part, decorations, note_part, note_line, marker.
  by case (_ && _).
Qed.
End formatter_changes.

(** C8: when the color of the annotation maps to one of the heading tokens
    "#", "##", "###", "####" and [join_titles] is set, the call replaces the
    text of the annotation by its white space collapse (every run of white
    space inside the text becomes one space) and emits the collapsed text;
    with any other marker, or with [join_titles] unset, the annotation is
    left as it is and its text is emitted unchanged. *)
Theorem format_annotation_join_titles cfg a indent :
  let r := _format_annotation cfg a indent in
  (marker cfg a ∈ heading_tokens → join_titles cfg = true →
     r.2 = set_text a (collapse_whitespace (text a)) ∧
     r.1 = indent ++ py "- " ++ marker cfg a ++ py " "
             ++ collapse_whitespace (text a)
             ++ decorations cfg a ++ note_part cfg a indent) ∧
  (marker cfg a ∉ heading_tokens ∨ join_titles cfg = false →
     r.2 = a ∧
     r.1 = indent ++ py "- " ++ marker_part cfg a ++ text a
             ++ decorations cfg a ++ note_part cfg a indent).
Proof.
  cbv zeta. rewrite format_annotation_fst, format_annotation_snd. split.
  - intros Hm Hj. rewrite bool_decide_eq_true_2, Hj by done. simpl.
    rewrite join_split_collapse. split; [done|].
    unfold marker_part. destruct (marker cfg a) as [|c m] eqn:E.
    + exfalso. revert Hm. apply (bool_decide_unpack _). by vm_compute.
    + simpl truthy. cbv iota. by rewrite <-!app_assoc.
  - intros [Hm|Hj].
    + by rewrite bool_decide_eq_false_2.
    + by rewrite Hj, andb_false_r.
Qed.

(** C10: a second call of [_format_annotation] on the same annotation
    returns the string the first call returned and leaves the annotation as
    the first call left it. *)
Theorem format_annotation_twice cfg a indent :
  let r1 := _format_annotation cfg a indent in
  let r2 := _format_annotation cfg r1.2 indent in
  r2.1 = r1.1 ∧ r2.2 = r1.2.
Proof. cbv zeta. by rewrite format_annotation_again. Qed.

(** C7, amended: for an annotation whose emitted parts (indent, marker,
    text as emitted, configured decorations, note icon, note) hold no line
    feed, the block is one line when the note is empty and two lines
    otherwise; the first line starts with the indent and "- ", the second
    is the indent, four more spaces, "- ", the note icon with one space
    when the color map has a non-empty icon under "note", and the note. *)
Theorem format_annotation_lines cfg a indent :
  single_line indent →
  single_line (marker cfg a) →
  single_line (text (_format_annotation cfg a indent).2) →
  single_line (decorations cfg a) →
  single_line (note_icon_part cfg) →
  single_line (note a) →
  let out := (_format_annotation cfg a indent).1 in
  let first := (_format_annotation cfg (set_note a []) indent).1 in
  single_line first ∧
  (∃ rest, first = indent ++ py "- " ++ rest) ∧
  (note a = [] → out = first ∧ nlines out = 1) ∧
  (note a ≠ [] →
     out = first ++ nl ++ (indent ++ py "    ") ++ py "- "
             ++ note_icon_part cfg ++ note a ∧
     nlines out = 2).
Proof.
  intros Hi Hm Ht Hd Hic Hn. cbv zeta.
  assert ((_format_annotation cfg (set_note a []) indent).1
          = indent ++ py "- " ++ marker_part cfg a
              ++ text (_format_annotation cfg a indent).2
              ++ decorations cfg a) as Hfirst.
  { rewrite format_annotation_fst, format_annotation_set_note.
    change (marker_part cfg (set_note a [])) with (marker_part cfg a).
    change (decorations cfg (set_note a [])) with (decorations cfg a).
    change (note_part cfg (set_note a []) indent) with (@nil N).
    rewrite app_nil_r. reflexivity. }
  assert (single_line (_format_annotation cfg (set_note a []) indent).1)
    as Hsl.
  { rewrite Hfirst. rewrite !single_line_app.
    split_and!; try done; [apply single_line_py_dash|].
    unfold marker_part. destruct (truthy _); [|by unfold single_line; set_solver].
    rewrite single_line_app. split; [done|].
    apply (bool_decide_unpack _). by vm_compute. }
  split; [done|]. split; [rewrite Hfirst; eauto|].
  assert ((_format_annotation cfg a indent).1
          = (_format_annotation cfg (set_note a []) indent).1
              ++ note_part cfg a indent) as Hout.
  { rewrite Hfirst, format_annotation_fst. by rewrite <-!app_assoc. }
  split.
  - intros Hnote. rewrite Hout. unfold note_part. rewrite Hnote. simpl.
    rewrite app_nil_r. split; [done|]. by apply single_line_nlines.
  - intros Hnote. rewrite Hout. unfold note_part, note_line.
    destruct (note a) as [|c n] eqn:E; [done|]. simpl truthy. cbv iota.
    split; [done|].
    rewrite nlines_app, (single_line_nlines _ Hsl).
    rewrite (nlines_app nl), (single_line_nlines (_ ++ _));
      [change (nlines nl) with 2; lia|].
    rewrite !single_line_app. split_and!; try done.
    + apply (bool_decide_unpack _). by vm_compute.
    + apply single_line_py_dash.
Qed.

(** C9, amended: for an annotation whose color is not a key of the color
    map the call leaves the annotation as it is and the block is the
    indent, "- " and the text, with no marker and no space in between,
    followed by the configured decorations and the note part; when indent,
    text and decorations hold no line feed, the first line is the indent,
    "- ", the text and the decorations. *)
Theorem format_annotation_unmapped_color cfg a indent :
  color_map cfg !! color a = None →
  let r := _format_annotation cfg a indent in
  r.2 = a ∧
  r.1 = indent ++ py "- " ++ text a
          ++ decorations cfg a ++ note_part cfg a indent ∧
  (single_line indent → single_line (text a) →
   single_line (decorations cfg a) →
   first_line r.1 = indent ++ py "- " ++ text a ++ decorations cfg a).
Proof.
  intros Hc. cbv zeta.
  assert (marker cfg a = []) as Hm by (unfold marker; by rewrite Hc).
  assert ((_format_annotation cfg a indent).2 = a) as Hsnd.
  { rewrite format_annotation_snd, Hm. done. }
  assert ((_format_annotation cfg a indent).1
          = indent ++ py "- " ++ text a
              ++ decorations cfg a ++ note_part cfg a indent) as Hfst.
  { rewrite format_annotation_fst, Hsnd. unfold marker_part.
    by rewrite Hm. }
  split; [done|]. split; [done|].
  intros Hi Ht Hd. rewrite Hfst. unfold note_part.
  assert (single_line (indent ++ py "- " ++ text a ++ decorations cfg a)).
  { rewrite !single_line_app. split_and!; try done.
    apply single_line_py_dash. }
  destruct (truthy (note a)).
  - replace (indent ++ py "- " ++ text a ++ decorations cfg a
               ++ nl ++ note_line cfg a indent)
      with ((indent ++ py "- " ++ text a ++ decorations cfg a)
              ++ nl ++ note_line cfg a indent)
      by (by rewrite <-!app_assoc).
    by apply first_line_app_nl.
  - rewrite app_nil_r. by apply first_line_single.
Qed.

Ltac by_evaluation := apply (bool_decide_unpack _); vm_compute; reflexivity.

(** C7 fails as stated: a two-line highlight under a marker that is not a
    heading token is emitted with its line feed, so a block with an empty
    note has two lines; and with an empty icon under "note" the note line
    carries neither icon nor space. *)
Lemma format_annotation_lines_counterexample :
  (note fox_green = [] ∧
   (_format_annotation sample_config fox_green []).1
     = py "- > The quick" ++ nl ++ py "brown fox" ∧
   nlines (_format_annotation sample_config fox_green []).1 = 2) ∧
  (is_Some (color_map empty_icon_config !! py "note") ∧
   (_format_annotation empty_icon_config plain_note []).1
     = py "- t" ++ nl ++ py "    - n").
Proof.
  split; [by vm_compute|]. split; [|by vm_compute].
  eexists. by vm_compute.
Qed.

Lemma format_annotation_lines_witness :
  (_format_annotation sample_config fox_yellow []).1
    = py "- ## The quick brown fox" ++ nl ++ py "    - N remember" ∧
  nlines (_format_annotation sample_config fox_yellow []).1 = 2.
Proof.
  destruct (format_annotation_lines sample_config fox_yellow [])
    as (_ & _ & _ & H); [by_evaluation..|].
  destruct H as [H1 H2]; [done|]. split; [|exact H2].
  rewrite H1. by vm_compute.
Defined.

(** C9 fails as stated: with the chapter decoration configured the first
    line of an annotation with an unmapped color is not the indent, "- "
    and the text alone. *)
Lemma format_annotation_unmapped_color_counterexample :
  color_map chapter_config !! color no_note = None ∧
  first_line (_format_annotation chapter_config no_note []).1
    = py "- t (Chapter 'One')" ∧
  py "- t (Chapter 'One')" ≠ [] ++ py "- " ++ text no_note.
Proof. split; [done|]. split; by vm_compute. Qed.

Lemma format_annotation_unmapped_color_witness :
  (_format_annotation default_config fox_green []).2 = fox_green ∧
  first_line (_format_annotation chapter_config no_note (py "    ")).1
    = py "    - t (Chapter 'One')".
Proof.
  split.
  - by apply (format_annotation_unmapped_color default_config fox_green []).
  - destruct (format_annotation_unmapped_color chapter_config no_note
                (py "    ")) as (_ & _ & H); [done|].
    rewrite H; [by vm_compute|by_evaluation..].
Defined.

(** ** Sorting and grouping *)

Section sort_group.
Context {A : Type} (key : A → str).
Implicit Types (x y : A) (l g : list A) (v : str).

Lemma insert_by_perm x l : insert_by key x l ≡ₚ x :: l.
Proof.
  induction l as [|y l IH]; simpl; [done|].
  destruct (str_leb _ _); [done|]. rewrite IH. apply Permutation_swap.
Qed.

Lemma sorted_perm l : sorted key l ≡ₚ l.
Proof.
  induction l as [|x l IH]; simpl; [done|].
  by rewrite insert_by_perm, IH.
Qed.

Lemma insert_by_sorted x l :
  StronglySorted (key_le key) l → StronglySorted (key_le key) (insert_by key x l).
Proof.
  induction 1 as [|y l Hl IH Hy]; simpl.
  { repeat constructor. }
  destruct (str_leb (key x) (key y)) eqn:E.
  - constructor; [by constructor|]. constructor; [done|].
    eapply Forall_impl; [exact Hy|]. intros z Hz.
    unfold key_le in *. by eapply str_leb_trans.
  - constructor; [done|]. rewrite insert_by_perm. constructor; [|done].
    unfold key_le. destruct (str_leb_total (key x) (key y)); congruence.
Qed.

Lemma sorted_sorted l : StronglySorted (key_le key) (sorted key l).
Proof.
  induction l as [|x l IH]; simpl; [constructor|].
  by apply insert_by_sorted.
Qed.

(** The sort is stable: the elements with a given key keep their order. *)
Lemma filter_insert_by v x l :
  filter (λ y, key y = v) (insert_by key x l)
  = filter (λ y, key y = v) (x :: l).
Proof.
  induction l as [|y l IH]; simpl; [done|].
  destruct (str_leb (key x) (key y)) eqn:E; [done|].
  rewrite filter_cons, IH, !filter_cons.
  destruct (decide (key y = v)) as [Hy|], (decide (key x = v)) as [Hx|];
    try done.
  rewrite Hx, Hy, str_leb_refl in E. done.
Qed.

Lemma filter_sorted v l :
  filter (λ y, key y = v) (sorted key l) = filter (λ y, key y = v) l.
Proof.
  induction l as [|x l IH]; simpl; [done|].
  by rewrite filter_insert_by, !filter_cons, IH.
Qed.

Lemma groupby_cons x l :
  ∃ g rest, groupby key (x :: l) = (key x, x :: g) :: rest.
Proof.
  simpl. destruct (groupby key l) as [|[k g] rest]; [by eexists _, _|].
  destruct (decide (key x = k)) as [<-|]; by eexists _, _.
Qed.

Lemma groupby_concat l : mjoin (groupby key l).*2 = l.
Proof.
  induction l as [|x l IH]; simpl; [done|].
  destruct (groupby key l) as [|[k g] rest].
  - simpl in *. by subst.
  - destruct (decide (key x = k)); simpl in *; by subst.
Qed.

(** Every group is a non-empty run of elements with the key of the
    group. *)
Lemma groupby_uniform l :
  Forall (λ kg, kg.2 ≠ [] ∧ Forall (λ x, key x = kg.1) kg.2)
         (groupby key l).
Proof.
  induction l as [|x l IH]; simpl; [constructor|].
  destruct (groupby key l) as [|[k g] rest].
  - repeat constructor; done.
  - inversion IH as [|?? [Hne Hg] Hrest]; subst. simpl in *.
    destruct (decide (key x = k)) as [Hk|].
    + constructor; [|done]. split; [done|]. by constructor.
    + constructor; [by repeat constructor|]. by constructor.
Qed.

Lemma groupby_keys_elem l v : v ∈ (groupby key l).*1 ↔ v ∈ key <$> l.
Proof.
  induction l as [|x l IH]; simpl; [done|].
  destruct (groupby key l) as [|[k g] rest] eqn:E.
  - simpl in *. destruct l as [|y l'].
    + done.
    + destruct (groupby_cons y l') as (? & ? & E'). congruence.
  - destruct (decide (key x = k)) as [Hk|]; simpl in *.
    + rewrite !elem_of_cons, <-IH, elem_of_cons, Hk. tauto.
    + rewrite !elem_of_cons, <-IH, elem_of_cons. tauto.
Qed.

(** On a sorted list the keys of the groups ascend strictly. *)
Lemma groupby_sorted_keys l :
  StronglySorted (key_le key) l → StronglySorted str_lt (groupby key l).*1.
Proof.
  induction 1 as [|x l Hl IH Hx]; simpl; [constructor|].
  destruct (groupby key l) as [|[k g] rest] eqn:E; simpl in *.
  { repeat constructor. }
  destruct (decide (key x = k)) as [Hk|Hk]; [done|]. simpl.
  constructor; [done|].
  assert (str_lt (key x) k) as Hlt.
  { destruct l as [|y l']; [done|].
    destruct (groupby_cons y l') as (? & ? & E').
    rewrite E' in E. simplify_eq. inversion Hx; subst.
    by apply str_leb_ne_ltb. }
  inversion IH as [|?? _ Hk']; subst.
  constructor; [done|]. eapply Forall_impl; [exact Hk'|].
  intros v Hv. by etrans.
Qed.

Lemma str_lt_sorted_NoDup (vs : list str) :
  StronglySorted str_lt vs → NoDup vs.
Proof.
  induction 1 as [|v vs _ IH Hv]; constructor; [|done].
  intros Hin. rewrite Forall_forall in Hv.
  by apply Hv, str_ltb_ne in Hin.
Qed.

Lemma filter_uniform_eq v g :
  Forall (λ x, key x = v) g → filter (λ y, key y = v) g = g.
Proof.
  induction 1; [done|]. rewrite filter_cons_True by done. by f_equal.
Qed.

Lemma filter_uniform_ne v v' g :
  v' ≠ v → Forall (λ x, key x = v') g → filter (λ y, key y = v) g = [].
Proof.
  intros Hne. induction 1; [done|]. rewrite filter_cons_False; [done|].
  congruence.
Qed.

Lemma filter_other_groups v (gs : list (str * list A)) :
  v ∉ gs.*1 →
  Forall (λ kg, kg.2 ≠ [] ∧ Forall (λ x, key x = kg.1) kg.2) gs →
  filter (λ y, key y = v) (mjoin gs.*2) = [].
Proof.
  induction gs as [|[k g] gs IH]; [done|]. simpl. intros Hv Hgs.
  apply not_elem_of_cons in Hv as [Hne Hv].
  inversion Hgs as [|?? [_ Hg] Hgs']; subst. simpl in *.
  rewrite filter_app, (filter_uniform_ne v k) by done. by apply IH.
Qed.

(** With distinct keys, a group is what the filter on its key selects. *)
Lemma groups_filter (gs : list (str * list A)) :
  NoDup gs.*1 →
  Forall (λ kg, kg.2 ≠ [] ∧ Forall (λ x, key x = kg.1) kg.2) gs →
  gs = (λ v, (v, filter (λ y, key y = v) (mjoin gs.*2))) <$> gs.*1.
Proof.
  induction gs as [|[k g] gs IH]; [done|]. simpl.
  intros Hnd Hgs. apply NoDup_cons in Hnd as [Hk Hnd].
  inversion Hgs as [|?? [_ Hg] Hgs']; subst. simpl in *.
  f_equal.
  - f_equal. rewrite filter_app, filter_uniform_eq by done.
    by rewrite filter_other_groups, app_nil_r.
  - rewrite IH at 1 by done. apply Forall_fmap_ext, Forall_forall.
    intros v Hv. f_equal. rewrite filter_app.
    rewrite (filter_uniform_ne v k g); [reflexivity| |done].
    by intros ->.
Qed.

(** The groups of the sorted list: for each key value, ascending, the
    elements with that value in the order of the list. *)
Lemma groupby_sorted l :
  groupby key (sorted key l)
  = (λ v, (v, filter (λ y, key y = v) l)) <$> group_values key l.
Proof.
  unfold group_values.
  rewrite (groups_filter (groupby key (sorted key l))) at 1.
  - apply Forall_fmap_ext, Forall_forall. intros v _.
    by rewrite groupby_concat, filter_sorted.
  - apply str_lt_sorted_NoDup, groupby_sorted_keys, sorted_sorted.
  - apply groupby_uniform.
Qed.

Lemma group_values_sorted l : StronglySorted str_lt (group_values key l).
Proof. apply groupby_sorted_keys, sorted_sorted. Qed.

Lemma group_values_elem l v : v ∈ group_values key l ↔ v ∈ key <$> l.
Proof.
  unfold group_values. by rewrite groupby_keys_elem, sorted_perm.
Qed.

Lemma group_values_remove_dups l :
  group_values key l ≡ₚ remove_dups (key <$> l).
Proof.
  apply NoDup_Permutation.
  - apply str_lt_sorted_NoDup, group_values_sorted.
  - apply NoDup_remove_dups.
  - intros v. by rewrite group_values_elem, elem_of_remove_dups.
Qed.

Lemma group_nonempty l v :
  v ∈ group_values key l → filter (λ y, key y = v) l ≠ [].
Proof.
  rewrite group_values_elem, list_elem_of_fmap. intros (x & -> & Hx) Hnil.
  assert (x ∈ filter (λ y, key y = key x) l) as Hin
    by (by apply list_elem_of_filter).
  rewrite Hnil in Hin. by apply elem_of_nil in Hin.
Qed.

(** The groups partition the list. *)
Lemma groups_perm l :
  mjoin ((λ v, filter (λ y, key y = v) l) <$> group_values key l) ≡ₚ l.
Proof.
  rewrite <-(sorted_perm l) at 2.
  rewrite <-(groupby_concat (sorted key l)), groupby_sorted.
  by rewrite <-list_fmap_compose.
Qed.
End sort_group.

(** Storing groups with distinct keys in an empty dictionary keeps them in
    their order. *)
Lemma dict_set_fresh {V} k (v : V) d : k ∉ d.*1 → dict_set k v d = d ++ [(k, v)].
Proof.
  induction d as [|[k' v'] d IH]; simpl; [done|]. intros Hk.
  apply not_elem_of_cons in Hk as [Hne Hk].
  destruct (decide (k = k')); [done|]. f_equal. by apply IH.
Qed.

Lemma fold_dict_set_NoDup {V} (gs d : list (str * V)) :
  NoDup (d.*1 ++ gs.*1) →
  fold_left (λ groups kg, dict_set kg.1 kg.2 groups) gs d = d ++ gs.
Proof.
  revert d. induction gs as [|[k g] gs IH]; intros d Hnd; simpl.
  { by rewrite app_nil_r. }
  rewrite dict_set_fresh.
  - rewrite IH, <-app_assoc; [done|].
    rewrite fmap_app, <-app_assoc. done.
  - apply NoDup_app in Hnd as (_ & Hd & _). intros Hk.
    apply (Hd k Hk). simpl. by left.
Qed.

Lemma build_groups_eq key annotations :
  build_groups key annotations
  = (λ v, (v, filter (λ a, key a = v) annotations))
      <$> group_values key annotations.
Proof.
  unfold build_groups. rewrite fold_dict_set_NoDup; simpl.
  - apply groupby_sorted.
  - apply str_lt_sorted_NoDup, groupby_sorted_keys, sorted_sorted.
Qed.

(** ** Calls that may raise, in sequence *)

Section results.
Context {A B : Type}.
Implicit Types (f : A → result B) (l : list A).

Lemma mapM_result_cons f x l :
  mapM f (x :: l) = y ← f x; k ← mapM f l; Ok (y :: k).
Proof. done. Qed.

(** [mapM] returns when every call returns. *)
Lemma mapM_result_Ok f l (g : A → B) :
  Forall (λ x, f x = Ok (g x)) l → mapM f l = Ok (g <$> l).
Proof.
  induction 1 as [|x l Hx _ IH]; [done|].
  rewrite mapM_result_cons, Hx. simpl. by rewrite IH.
Qed.

(** What [mapM] returns is made of what the calls return. *)
Lemma mapM_result_inv f l (g : A → B) ks :
  (∀ x y, f x = Ok y → y = g x) → mapM f l = Ok ks → ks = g <$> l.
Proof.
  intros Hg. revert ks. induction l as [|x l IH]; intros ks.
  { intros [= <-]. done. }
  rewrite mapM_result_cons. destruct (f x) as [y|e] eqn:Hx; [|done]. simpl.
  destruct (mapM f l) as [k|e]; [|done]. simpl. intros [= <-].
  by rewrite (Hg x y Hx), (IH k eq_refl).
Qed.

(** [mapM] depends on the calls at the elements of the list only. *)
Lemma mapM_result_ext f1 f2 l :
  Forall (λ x, f1 x = f2 x) l → mapM f1 l = mapM f2 l.
Proof.
  induction 1 as [|x l Hx _ IH]; [done|].
  by rewrite !mapM_result_cons, Hx, IH.
Qed.

Lemma mapM_result_fmap {C} (h : C → A) f (l : list C) :
  mapM f (h <$> l) = mapM (λ x, f (h x)) l.
Proof.
  induction l as [|x l IH]; [done|].
  rewrite fmap_cons, !mapM_result_cons. by rewrite IH.
Qed.
End results.

(** ** The grouping renderer *)

Section renderer.
Variable rt : Runtime.
Implicit Types (cfg : Config) (a : Annotation) (indent : str).
Implicit Types (annotations : list Annotation) (its : list item).
Implicit Types (attr : attribute).

Lemma fmap_mjoin {A B} (f : A → B) (ls : list (list A)) :
  f <$> mjoin ls = mjoin (fmap f <$> ls).
Proof.
  induction ls as [|l ls IH]; [done|]. simpl. by rewrite fmap_app, IH.
Qed.

Lemma orderable_hashable attr : orderable attr = true → hashable attr = true.
Proof. by destruct attr. Qed.

Lemma group_and_dump_nil_keys cfg annotations indent :
  group_and_dump rt cfg [] annotations indent
  = Ok ((λ a, (_format_annotation cfg a indent).1) <$> annotations).
Proof. done. Qed.

(** The second loop: the recursive calls in the order of the groups, the
    first that raises ending the loop. *)
Lemma fold_groups {G} (f : G → result (list str)) (h : G → str)
    (gs : list G) (acc : list str) :
  fold_left (λ acc ga, lines ← acc; sub ← f ga; Ok (lines ++ [h ga] ++ sub))
    gs (Ok acc)
  = subs ← mapM f gs;
    Ok (acc ++ mjoin (zip_with (λ ga sub, h ga :: sub) gs subs)).
Proof.
  revert acc. induction gs as [|ga gs IH]; intros acc.
  { simpl. by rewrite app_nil_r. }
  rewrite mapM_result_cons. simpl fold_left.
  destruct (f ga) as [sub|e]; simpl.
  - rewrite IH. destruct (mapM f gs) as [subs|e]; [|done]. simpl.
    by rewrite <-!app_assoc.
  - clear IH. by induction gs.
Qed.

(** The renderer, by cases on the first key. *)
Lemma group_and_dump_cons_keys cfg k rest a0 annotations indent :
  group_and_dump rt cfg (k :: rest) (a0 :: annotations) indent
  = match getattr rt k with
    | None => group_and_dump rt cfg [] (a0 :: annotations) indent
    | Some attr =>
        if negb (orderable attr) && (2 <=? length (a0 :: annotations)) then
          Raise TypeError
        else if negb (hashable attr) then Raise TypeError
        else
          subs ← mapM
                   (λ v, group_and_dump rt cfg rest
                           (filter (λ a, shown_of attr a = v)
                                   (a0 :: annotations))
                           (indent ++ py "    "))
                   (group_values (shown_of attr) (a0 :: annotations));
          Ok (mjoin (zip_with (λ v sub, heading indent v :: sub)
                              (group_values (shown_of attr) (a0 :: annotations))
                              subs))
    end.
Proof.
  cbn [group_and_dump]. unfold hasattr.
  destruct (getattr rt k) as [attr|]; [|done].
  destruct (negb (orderable attr) && _); [done|].
  destruct (negb (hashable attr)); [done|].
  rewrite build_groups_eq.
  rewrite (fold_groups
             (λ ga, group_and_dump rt cfg rest ga.2 (indent ++ py "    "))
             (λ ga, heading indent ga.1)).
  rewrite mapM_result_fmap. simpl.
  destruct (mapM _ _) as [subs|e]; [|done]. simpl.
  by rewrite zip_with_fmap_l.
Qed.

(** What the renderer returns are the lines of the outline. *)
Lemma group_and_dump_outline cfg group_keys :
  ∀ annotations indent out,
    group_and_dump rt cfg group_keys annotations indent = Ok out →
    out = render cfg <$> outline rt group_keys annotations indent.
Proof.
  induction group_keys as [|k rest IH]; intros annotations indent out.
  { rewrite group_and_dump_nil_keys. intros [= <-]. simpl.
    by rewrite <-list_fmap_compose. }
  destruct annotations as [|a0 annotations]; [done|].
  rewrite group_and_dump_cons_keys. simpl outline.
  destruct (getattr rt k) as [attr|].
  - destruct (negb (orderable attr) && _); [done|].
    destruct (negb (hashable attr)); [done|].
    destruct (mapM _ _) as [subs|e] eqn:Hsubs; [|done]. simpl.
    intros [= <-].
    apply (mapM_result_inv _ _
             (λ v, render cfg <$>
                     outline rt rest
                       (filter (λ a, shown_of attr a = v) (a0 :: annotations))
                       (indent ++ py "    "))) in Hsubs;
      [|intros v sub; apply IH].
    rewrite Hsubs, zip_with_fmap_r, zip_with_diag, fmap_mjoin.
    f_equal. by rewrite <-list_fmap_compose.
  - rewrite group_and_dump_nil_keys. intros [= <-].
    change (Block a0 indent :: _)
      with ((λ a, Block a indent) <$> a0 :: annotations).
    by rewrite <-list_fmap_compose.
Qed.

(** On a non-empty list the renderer returns when the values of every
    key that is an attribute order. *)
Lemma group_and_dump_returns cfg group_keys :
  ∀ annotations indent,
    annotations ≠ [] →
    Forall (orders_key rt) group_keys →
    group_and_dump rt cfg group_keys annotations indent
    = Ok (render cfg <$> outline rt group_keys annotations indent).
Proof.
  induction group_keys as [|k rest IH]; intros annotations indent Hne Hks.
  { rewrite group_and_dump_nil_keys. simpl.
    by rewrite <-list_fmap_compose. }
  destruct annotations as [|a0 annotations]; [done|].
  apply Forall_cons in Hks as [Hk Hrest].
  rewrite group_and_dump_cons_keys. simpl outline.
  unfold orders_key in Hk.
  destruct (getattr rt k) as [attr|].
  - specialize (Hk attr eq_refl).
    rewrite (orderable_hashable _ Hk), Hk. simpl.
    rewrite (mapM_result_Ok _ _
               (λ v, render cfg <$>
                       outline rt rest
                         (filter (λ a, shown_of attr a = v) (a0 :: annotations))
                         (indent ++ py "    "))).
    + simpl. rewrite zip_with_fmap_r, zip_with_diag, fmap_mjoin.
      do 2 f_equal. by rewrite <-list_fmap_compose.
    + apply Forall_forall. intros v Hv. apply IH; [|done].
      by apply group_nonempty.
  - rewrite group_and_dump_nil_keys.
    change (Block a0 indent :: _)
      with ((λ a, Block a indent) <$> a0 :: annotations).
    by rewrite <-list_fmap_compose.
Qed.

Lemma blocks_app its1 its2 : blocks (its1 ++ its2) = blocks its1 ++ blocks its2.
Proof. apply omap_app. Qed.

Lemma headings_app its1 its2 :
  headings (its1 ++ its2) = headings its1 + headings its2.
Proof. unfold headings. by rewrite omap_app, length_app. Qed.

Lemma item_lines_sum its :
  sum_list_with item_lines its
  = sum_list_with block_lines (blocks its) + headings its.
Proof.
  induction its as [|it its IH]; [done|].
  change (it :: its) with ([it] ++ its).
  rewrite blocks_app, headings_app, !sum_list_with_app, IH.
  generalize (sum_list_with block_lines (blocks its)) (headings its).
  intros n m. destruct it; unfold headings; simpl; lia.
Qed.

(** Every annotation has its block in the outline, once. *)
Lemma outline_blocks group_keys :
  ∀ annotations indent,
    blocks (outline rt group_keys annotations indent) ≡ₚ annotations.
Proof.
  assert (∀ annotations indent,
            blocks ((λ a, Block a indent) <$> annotations) = annotations)
    as Hleaf.
  { intros l i. induction l as [|a l IH]; [done|]. simpl. by f_equal. }
  induction group_keys as [|k rest IH]; intros annotations indent; simpl.
  { by rewrite Hleaf. }
  destruct (getattr rt k) as [attr|]; [|by rewrite Hleaf].
  rewrite <-(groups_perm (shown_of attr) annotations) at 2.
  induction (group_values (shown_of attr) annotations) as [|v vs IHvs];
    [done|].
  simpl. rewrite blocks_app, IH, IHvs. done.
Qed.

(** The outline has as many headings as [heading_count] says. *)
Lemma outline_headings group_keys :
  ∀ annotations indent,
    headings (outline rt group_keys annotations indent)
    = heading_count rt group_keys annotations.
Proof.
  assert (∀ annotations indent,
            headings ((λ a, Block a indent) <$> annotations) = 0)
    as Hleaf.
  { intros l i. by induction l. }
  induction group_keys as [|k rest IH]; intros annotations indent; simpl.
  { apply Hleaf. }
  destruct (getattr rt k) as [attr|]; [|apply Hleaf].
  rewrite <-(group_values_remove_dups (shown_of attr) annotations).
  induction (group_values (shown_of attr) annotations) as [|v vs IHvs];
    [done|].
  csimpl.
  change (headings (Heading v indent :: ?its)) with (S (headings its)).
  by rewrite headings_app, IH, IHvs.
Qed.

(** The assembler puts the lines of the renderer after the metadata
    block. *)
Lemma generate_markdown_cons cfg metadata a0 annotations :
  generate_markdown rt cfg metadata (a0 :: annotations)
  = out ← group_and_dump rt cfg (group_keys_of cfg) (a0 :: annotations) [];
    Ok (Some (join nl
                ((if include_metadata cfg then
                    [py "- title:: " ++ dq ++ title metadata ++ dq;
                     py "  author:: " ++ dq ++ author metadata ++ dq;
                     py "  source:: " ++ dq ++ source metadata ++ dq;
                     py "  imported:: " ++ imported metadata]
                  else []) ++ out))).
Proof. done. Qed.
End renderer.

(** C3: on a non-empty list [group_and_dump] returns when the values of
    every key that is an attribute order, as those of the five fields do,
    and the lines it returns are the lines of an outline that has one
    block for every annotation and whose line total, a block counting one
    line without note and two with a note and a heading one line, is the
    sum of the block lines of the annotations plus one heading for each
    distinct value at each level of grouping applied. *)
Theorem group_and_dump_line_count rt cfg group_keys annotations indent :
  annotations ≠ [] →
  (Forall (orders_key rt) group_keys →
   ∃ out, group_and_dump rt cfg group_keys annotations indent = Ok out) ∧
  (∀ out,
     group_and_dump rt cfg group_keys annotations indent = Ok out →
     ∃ items,
       out = render cfg <$> items ∧
       blocks items ≡ₚ annotations ∧
       sum_list_with item_lines items
         = sum_list_with block_lines annotations
           + heading_count rt group_keys annotations).
Proof.
  intros Hne. split.
  { intros Hks. eexists. by apply group_and_dump_returns. }
  intros out Hout. exists (outline rt group_keys annotations indent).
  split; [by apply group_and_dump_outline|].
  split; [apply outline_blocks|].
  by rewrite item_lines_sum, outline_blocks, outline_headings.
Qed.

Lemma group_and_dump_line_count_witness :
  ∃ out items,
    group_and_dump sample_runtime sample_config
      [py "chapter"; py "__doc__"; py "date"]
      [fox_green; fox_yellow; plain_note; no_note] [] = Ok out ∧
    out = render sample_config <$> items ∧
    blocks items ≡ₚ [fox_green; fox_yellow; plain_note; no_note] ∧
    sum_list_with item_lines items = 6 + 7.
Proof.
  destruct (group_and_dump_line_count sample_runtime sample_config
              [py "chapter"; py "__doc__"; py "date"]
              [fox_green; fox_yellow; plain_note; no_note] [])
    as [Hreturns Hlines]; [done|].
  destruct Hreturns as [out Hout].
  { repeat constructor; intros attr; vm_compute; by intros [= <-]. }
  destruct (Hlines out Hout) as (items & Hitems & Hblocks & Hsum).
  exists out, items. split; [exact Hout|]. split; [exact Hitems|].
  split; [exact Hblocks|]. rewrite Hsum. by vm_compute.
Defined.



(** The rendering of the sample annotations grouped by chapter. *)
Example group_and_dump_by_chapter :
  group_and_dump sample_runtime sample_config [py "chapter"]
    [fox_green; fox_yellow; plain_note; no_note] []
  = Ok [py "- # One"; py "    - > The quick" ++ nl ++ py "brown fox";
        py "    - t";
        py "- # Two";
        py "    - ## The quick brown fox" ++ nl ++ py "        - N remember";
        py "    - t" ++ nl ++ py "        - N n"].
Proof. by vm_compute. Qed.

(** A key whose values do not order makes [sorted] raise as soon as there
    are two annotations, one whose values do not hash makes the
    assignment to [groups] raise. *)
Example group_and_dump_type_error :
  group_and_dump sample_runtime sample_config [py "__class__"]
    [fox_green; fox_yellow] [] = Raise TypeError ∧
  group_and_dump sample_runtime sample_config [py "__class__"] [fox_green] []
    = Ok [py "- # <class '__main__.Annotation'>";
          py "    - > The quick" ++ nl ++ py "brown fox"] ∧
  group_and_dump sample_runtime sample_config [py "__dict__"] [fox_green] []
    = Raise TypeError.
Proof. by vm_compute. Qed.

(** C5 fails as stated: [__doc__] is not a field of [Annotation], but
    [hasattr] holds for it, and the annotations are grouped by it, under
    one heading, instead of being dumped flat. *)
Lemma group_and_dump_unknown_key_counterexample :
  (py "__doc__" ∉ [py "date"; py "chapter"; py "color"; py "text"; py "note"]) ∧
  group_and_dump sample_runtime default_config [py "__doc__"] [no_note] []
    = Ok [py "- # Annotation(date: str, chapter: str, color: str, text: str, note: str)";
          py "    - t"] ∧
  group_and_dump sample_runtime default_config [] [no_note] []
    = Ok [py "- t"].
Proof. split; [by_evaluation|]. by vm_compute. Qed.

(** C5, amended: on a non-empty list, a first key for which [hasattr]
    fails, which is neither a field of [Annotation] nor another attribute
    of it, gives the lines the empty key list gives: the block of each
    annotation at the indent, without headings. *)
Theorem group_and_dump_unknown_key rt cfg k rest annotations indent :
  annotations ≠ [] →
  (∀ a, hasattr rt a k = false) →
  group_and_dump rt cfg (k :: rest) annotations indent
    = group_and_dump rt cfg [] annotations indent ∧
  group_and_dump rt cfg [] annotations indent
    = Ok ((λ a, (_format_annotation cfg a indent).1) <$> annotations).
Proof.
  intros Hne Hk. split; [|done].
  destruct annotations as [|a0 annotations]; [done|].
  specialize (Hk a0). unfold hasattr in Hk.
  rewrite group_and_dump_cons_keys. by destruct (getattr rt k).
Qed.

Lemma group_and_dump_unknown_key_witness :
  group_and_dump sample_runtime sample_config [py "all"; py "chapter"]
    [fox_green; fox_yellow] (py "    ")
    = group_and_dump sample_runtime sample_config [] [fox_green; fox_yellow]
        (py "    ") ∧
  group_and_dump sample_runtime sample_config [] [fox_green; fox_yellow]
    (py "    ")
    = Ok ((λ a, (_format_annotation sample_config a (py "    ")).1)
            <$> [fox_green; fox_yellow]).
Proof.
  by apply (group_and_dump_unknown_key sample_runtime sample_config (py "all")
              [py "chapter"] [fox_green; fox_yellow] (py "    ")).
Defined.

(** C2 fails as stated: with a key in the list the call on an empty
    annotation list raises [IndexError], whether or not the key is a
    field. *)
Lemma group_and_dump_empty_counterexample :
  group_and_dump sample_runtime default_config [py "date"] [] []
    = Raise IndexError ∧
  group_and_dump sample_runtime default_config [py "all"] [] []
    = Raise IndexError.
Proof. done. Qed.

(** C2, amended: on an empty annotation list [group_and_dump] returns the
    empty list of lines when the key list is empty and raises
    [IndexError] when it is not; [generate_markdown] returns before the
    call when the list is empty. *)
Theorem group_and_dump_empty rt cfg indent :
  group_and_dump rt cfg [] [] indent = Ok [] ∧
  (∀ k rest, group_and_dump rt cfg (k :: rest) [] indent = Raise IndexError) ∧
  (∀ metadata, generate_markdown rt cfg metadata [] = Ok None).
Proof. done. Qed.

(** C6 fails as stated: without [h1], [h2] and citation elements the
    parser returns "Not specified" in the three fields, not the defaults
    of [MetaData]. *)
Lemma extract_missing_metadata_counterexample :
  _extract_annotations_from_html (mkSoup [] None None None) (py "now")
    = Ok ({| title := py "Not specified"; author := py "Not specified";
             source := py "Not specified"; imported := py "now" |}, []) ∧
  py "Not specified" ≠ py "Untitled" ∧
  py "Not specified" ≠ py "Unknown" ∧
  py "Not specified" ≠ py "Unspecified".
Proof. split; [by vm_compute|]. split_and!; by vm_compute. Qed.

(** C6, amended: when every annotation element of the document can be
    extracted the parser returns, and the metadata it returns has "Not
    specified" as title, author or source when the [h1], the [h2] or the
    citation element is missing. *)
Theorem extract_missing_metadata soup now annotations :
  mapM _extract_annotation (annotation_elems soup) = Ok annotations →
  ∃ metadata,
    _extract_annotations_from_html soup now = Ok (metadata, annotations) ∧
    imported metadata = now ∧
    (h1 soup = None → title metadata = py "Not specified") ∧
    (h2 soup = None → author metadata = py "Not specified") ∧
    (citation soup = None → source metadata = py "Not specified").
Proof.
  intros Hann. unfold _extract_annotations_from_html. rewrite Hann.
  eexists. split; [reflexivity|]. simpl.
  split; [done|]. split; [by intros ->|]. split; [by intros ->|].
  by intros ->.
Qed.

Lemma extract_missing_metadata_witness :
  ∃ metadata,
    _extract_annotations_from_html
      (mkSoup [] (Some (py " A Book ")) None None) (py "now")
      = Ok (metadata, []) ∧
    imported metadata = py "now" ∧
    (Some (py " A Book ") = None → title metadata = py "Not specified") ∧
    (@None str = None → author metadata = py "Not specified") ∧
    (@None str = None → source metadata = py "Not specified").
Proof.
  by apply (extract_missing_metadata
              (mkSoup [] (Some (py " A Book ")) None None) (py "now") []).
Defined.

(** C1, at a message without annotations: [generate_markdown] returns no
    document, but [process_emails] hands it to [dump_markdown] all the
    same, which opens the file (creating it empty) and raises [TypeError]
    on the write; the messages after it are not processed. With
    [dump_stdout] set, [None] is printed. *)
Theorem process_emails_empty_message rt sanitize repr email_cfg now messages :
  _extract_annotations_from_html (mkSoup [] None None None) now
    = Ok ({| title := py "Not specified"; author := py "Not specified";
             source := py "Not specified"; imported := now |}, []) ∧
  generate_markdown rt default_config
    {| title := py "Not specified"; author := py "Not specified";
       source := py "Not specified"; imported := now |} [] = Ok None ∧
  process_emails rt sanitize repr email_cfg default_config
    ((mkSoup [] None None None, now) :: messages) (mkWorld [] ∅)
    = (mkWorld [] {[ sanitize (py "Not specified-Not specified-Notes.md")
                     := [] ]},
       Raise TypeError) ∧
  dump_markdown rt sanitize stdout_config None
    (py "Not specified-Not specified-Notes.md") (mkWorld [] ∅)
    = (mkWorld [py "None"] ∅, Ok ()).
Proof.
  split; [done|]. split; [done|]. split; [|done].
  cbn -[py]. unfold dump_markdown, open_file. cbn -[py].
  rewrite insert_empty. done.
Qed.

(** * Further properties *)

(** ** Stripping *)

Section strip_facts.
Implicit Types (s t : str) (c : N).

Lemma lstrip_head s :
  match head (lstrip s) with Some c => isspace c = false | None => True end.
Proof.
  induction s as [|c s IH]; [done|]. simpl.
  destruct (isspace c) eqn:Hc; [done|]. simpl. done.
Qed.

Lemma lstrip_elem s c : c ∈ lstrip s → c ∈ s.
Proof.
  induction s as [|d s IH]; [done|]. simpl.
  destruct (isspace d); [|done]. intros Hc. right. by apply IH.
Qed.

Lemma lstrip_snoc s c : isspace c = false → lstrip (s ++ [c]) = lstrip s ++ [c].
Proof.
  intros Hc. induction s as [|d s IH]; simpl; [by rewrite Hc|].
  by destruct (isspace d).
Qed.

Lemma rstrip_cons s c : isspace c = false → rstrip (c :: s) = c :: rstrip s.
Proof.
  intros Hc. unfold rstrip.
  by rewrite reverse_cons, lstrip_snoc, reverse_snoc.
Qed.

Lemma rstrip_elem s c : c ∈ rstrip s → c ∈ s.
Proof.
  unfold rstrip. rewrite elem_of_reverse. intros Hc.
  apply lstrip_elem in Hc. by apply elem_of_reverse.
Qed.

Lemma strip_elem s c : c ∈ strip s → c ∈ s.
Proof. intros Hc. by apply lstrip_elem, rstrip_elem. Qed.

Lemma strip_stripped s : stripped (strip s).
Proof.
  unfold stripped, strip. split.
  - pose proof (lstrip_head s) as Hh.
    destruct (lstrip s) as [|c t]; [done|]. simpl in Hh.
    by rewrite rstrip_cons.
  - unfold rstrip. rewrite last_reverse. apply lstrip_head.
Qed.

Lemma strip_single_line s : single_line s → single_line (strip s).
Proof. unfold single_line. intros Hs Hin. by apply Hs, strip_elem. Qed.

Lemma first_line_is_single_line s : single_line (first_line s).
Proof.
  unfold single_line. induction s as [|c s IH]; simpl; [by apply not_elem_of_nil|].
  destruct (N.eqb_spec c 10); [by apply not_elem_of_nil|].
  apply not_elem_of_cons. split; [done|exact IH].
Qed.

Lemma extract_if_not_none_stripped elem : stripped (extract_if_not_none elem).
Proof.
  destruct elem as [t|]; simpl; [apply strip_stripped|].
  split; by vm_compute.
Qed.
End strip_facts.

(** ** The annotation parser *)

Section parser_facts.

Lemma fmap_strip_ok found t :
  strip <$> text_of found = Ok t ↔ ∃ t0, found = Some t0 ∧ t = strip t0.
Proof.
  destruct found as [t0|]; simpl.
  - split; [intros [= <-]; by eexists|]. by intros (? & [= <-] & ->).
  - split; [done|]. by intros (? & ? & _).
Qed.

(** What a successful extraction found, and what it returns. *)
Lemma extract_annotation_ok e a :
  _extract_annotation e = Ok a ↔
  ∃ d c classes col t n,
    annotationdate e = Some d ∧ annotationchapter e = Some c ∧
    annotationselectionMarker e = Some classes ∧ last classes = Some col ∧
    annotationrepresentativetext e = Some t ∧ annotationnote e = Some n ∧
    a = mkAnnotation (strip d) (strip c) col (strip t) (strip n).
Proof.
  unfold _extract_annotation, last_class.
  destruct (annotationdate e) as [d|], (annotationchapter e) as [c|],
    (annotationselectionMarker e) as [classes|],
    (annotationrepresentativetext e) as [t|], (annotationnote e) as [n|];
    simpl; try (split; [done|]; by intros (?&?&?&?&?&?&?&?&?&?&?&?&?)).
  all: destruct (last classes) as [col|] eqn:Hl; simpl;
    try (split; [done|]; intros (?&?&?&?&?&?&?&?&?&?&?&?&?); congruence).
  split.
  - intros [= <-]. by eexists _, _, _, _, _, _.
  - intros (?&?&?&?&?&?&?&?&?&?&?&?&->). simplify_eq. congruence.
Qed.

Lemma mapM_result_ok {A B} (f : A → result B) l k :
  mapM f l = Ok k ↔ Forall2 (λ x y, f x = Ok y) l k.
Proof.
  revert k. induction l as [|x l IH]; intros k; simpl.
  - split; [intros [= <-]; constructor|]. by inversion 1.
  - destruct (f x) as [y|ex] eqn:Hx; simpl.
    + destruct (mapM f l) as [k'|ex] eqn:Hl; simpl; unfold mret, result_ret.
      * split.
        -- intros [= <-]. constructor; [done|]. by apply IH.
        -- inversion 1 as [|???? Hy Hk]; subst. apply IH in Hk.
           congruence.
      * split; [done|]. inversion 1 as [|???? Hy Hk]; subst.
        apply IH in Hk. done.
    + split; [done|]. inversion 1; congruence.
Qed.

Lemma mapM_result_raise {A B} (f : A → result B) l x ex :
  x ∈ l → f x = Raise ex →
  Forall (λ y, ∀ ex', f y = Raise ex' → ex' = ex) l →
  mapM f l = Raise ex.
Proof.
  intros Hx Hfx Hall. induction l as [|y l IH]; [by apply elem_of_nil in Hx|].
  inversion Hall as [|?? Hy Hall']; subst. simpl.
  destruct (f y) as [b|ex'] eqn:Hfy; simpl.
  - apply elem_of_cons in Hx as [->|Hx]; [congruence|].
    by rewrite IH.
  - f_equal. by apply Hy.
Qed.

Lemma extract_annotation_raise e ex :
  annotationselectionMarker e ≠ Some [] →
  _extract_annotation e = Raise ex → ex = AttributeError.
Proof.
  intros Hm. unfold _extract_annotation, last_class.
  destruct (annotationdate e), (annotationchapter e),
    (annotationselectionMarker e) as [[|c cs]|],
    (annotationrepresentativetext e), (annotationnote e);
    simpl; try congruence.
  all: destruct (last (c :: cs)) eqn:Hl; simpl; try congruence.
  all: by apply last_None in Hl.
Qed.
End parser_facts.

(** X1: the parser returns exactly when every element of class
    "annotation" can be extracted, and then with one annotation for each
    element, in the order of the document. *)
Theorem extract_annotations_elementwise soup now annotations :
  (∃ metadata,
     _extract_annotations_from_html soup now = Ok (metadata, annotations))
  ↔ Forall2 (λ e a, _extract_annotation e = Ok a)
            (annotation_elems soup) annotations.
Proof.
  rewrite <-mapM_result_ok. unfold _extract_annotations_from_html.
  destruct (mapM _ _) as [k|ex]; simpl.
  - split; [by intros (? & [= _ <-])|]. intros [= <-]. by eexists.
  - split; [by intros (? & ?)|done].
Qed.

(** X2: one element that lacks one of the five descendants makes the
    whole parse raise [AttributeError], whatever the other elements hold;
    no metadata is returned. *)
Theorem extract_annotations_missing_descendant soup now e :
  Forall (λ e, annotationselectionMarker e ≠ Some []) (annotation_elems soup) →
  e ∈ annotation_elems soup →
  annotationdate e = None ∨ annotationchapter e = None
  ∨ annotationselectionMarker e = None
  ∨ annotationrepresentativetext e = None ∨ annotationnote e = None →
  _extract_annotations_from_html soup now = Raise AttributeError.
Proof.
  intros Hcls He Hmiss. unfold _extract_annotations_from_html.
  rewrite (mapM_result_raise _ _ e AttributeError); [done|done| |].
  - destruct (_extract_annotation e) as [a|ex] eqn:Hex.
    + apply extract_annotation_ok in Hex
        as (?&?&?&?&?&?&?&?&?&?&?&?&?).
      destruct Hmiss as [?|[?|[?|[?|?]]]]; congruence.
    + f_equal. apply (extract_annotation_raise e); [|done].
      rewrite Forall_forall in Hcls. by apply Hcls.
  - eapply Forall_impl; [exact Hcls|]. intros e' He' ex.
    by apply extract_annotation_raise.
Qed.

Lemma extract_annotations_missing_descendant_witness :
  _extract_annotations_from_html
    {| annotation_elems := [sample_elem; broken_elem];
       h1 := Some (py "A Book"); h2 := None; citation := None |} (py "now")
  = Raise AttributeError.
Proof.
  apply (extract_annotations_missing_descendant _ _ broken_elem).
  - by repeat constructor.
  - right. by left.
  - right. by left.
Defined.

(** X3: an extracted annotation has no white space at the ends of its
    date, chapter, text and note, and its color is the last class of the
    selection marker. *)
Theorem extract_annotation_stripped e a :
  _extract_annotation e = Ok a →
  stripped (date a) ∧ stripped (chapter a) ∧ stripped (text a)
  ∧ stripped (note a) ∧
  ∃ classes, annotationselectionMarker e = Some classes
             ∧ last classes = Some (color a).
Proof.
  intros (d & c & classes & col & t & n & _ & _ & Hm & Hl & _ & _ & ->)
    %extract_annotation_ok. simpl.
  split_and!; try apply strip_stripped. by exists classes.
Qed.

Lemma extract_annotation_stripped_witness :
  _extract_annotation sample_elem
    = Ok {| date := py "1 May"; chapter := py "One"; color := py "yellow";
            text := py "The quick"; note := [] |} ∧
  stripped (py "1 May") ∧ stripped (py "The quick").
Proof.
  split; [by vm_compute|].
  destruct (extract_annotation_stripped sample_elem
              {| date := py "1 May"; chapter := py "One";
                 color := py "yellow"; text := py "The quick"; note := [] |})
    as (Hd & _ & Ht & _); [by vm_compute|]. by split.
Defined.

(** X4: the title, author and source the parser returns have no white
    space at their ends; the source holds no line feed and, when there is
    a citation element, is the first line of its stripped text, stripped;
    the import time is the time of the call. *)
Theorem extract_metadata_stripped soup now metadata annotations :
  _extract_annotations_from_html soup now = Ok (metadata, annotations) →
  stripped (title metadata) ∧ stripped (author metadata)
  ∧ stripped (source metadata) ∧ single_line (source metadata)
  ∧ (∀ t, citation soup = Some t
          → source metadata = strip (first_line (strip t)))
  ∧ imported metadata = now.
Proof.
  unfold _extract_annotations_from_html.
  destruct (mapM _ _) as [k|ex]; simpl; [|done]. intros [= <- _]. simpl.
  assert (∀ s, (if decide (s ≠ py "Not specified")
                then strip (first_line s) else s)
               = strip (first_line s)) as Hif.
  { intros s. destruct (decide _) as [|Hs]; [done|].
    apply dec_stable in Hs as ->. by vm_compute. }
  rewrite Hif. split_and!; try apply extract_if_not_none_stripped.
  - apply strip_stripped.
  - apply strip_single_line, first_line_is_single_line.
  - by intros t ->.
  - done.
Qed.

Lemma extract_metadata_stripped_witness :
  ∃ annotations,
    _extract_annotations_from_html sample_soup (py "now")
    = Ok ({| title := py "A Book"; author := py "Not specified";
             source := py "Excerpt from A Book"; imported := py "now" |},
          annotations) ∧
    single_line (py "Excerpt from A Book").
Proof.
  eexists. split; [by vm_compute|].
  eapply (extract_metadata_stripped sample_soup (py "now")
            {| title := py "A Book"; author := py "Not specified";
               source := py "Excerpt from A Book"; imported := py "now" |}).
  by vm_compute.
Defined.

(** ** The line formatter, further *)

Section formatter_facts.
Implicit Types (cfg : Config) (a : Annotation) (indent : str).

Lemma join_words_stripped ws : Forall word ws → stripped (join (py " ") ws).
Proof.
  intros Hws. split.
  - destruct Hws as [|w ws [Hne Hw] Hws]; [done|].
    destruct w as [|c w]; [done|]. inversion Hw; subst.
    by destruct ws.
  - induction Hws as [|w ws [Hne Hw] Hws IH]; [done|].
    destruct ws as [|w2 ws'].
    + simpl. destruct (last w) as [c|] eqn:Hl; [|done].
      rewrite Forall_forall in Hw. apply Hw.
      apply last_Some in Hl as (w' & ->). apply elem_of_app. right. by left.
    + change (join (py " ") (w :: w2 :: ws'))
        with (w ++ 32%N :: join (py " ") (w2 :: ws')).
      rewrite last_app, last_cons.
      destruct (last (join (py " ") (w2 :: ws'))) as [c|] eqn:Hl; [done|].
      exfalso. apply last_None in Hl.
      inversion Hws as [|?? [Hne2 _] _]; subst.
      destruct w2; [done|]. by destruct ws'.
Qed.

Lemma heading_token_single_line m : m ∈ heading_tokens → single_line m.
Proof.
  unfold heading_tokens. rewrite !elem_of_cons, elem_of_nil.
  intros [->|[->|[->|[->|[]]]]]; by_evaluation.
Qed.
Lemma format_annotation_join_titles_eq cfg a indent :
  marker cfg a ∈ heading_tokens → join_titles cfg = true →
  (_format_annotation cfg a indent).2
    = set_text a (join (py " ") (split (text a))) ∧
  (_format_annotation cfg a indent).1
    = indent ++ py "- " ++ marker cfg a ++ py " "
        ++ join (py " ") (split (text a))
        ++ decorations cfg a ++ note_part cfg a indent.
Proof.
  intros Hm Hj. rewrite format_annotation_fst, format_annotation_snd.
  rewrite bool_decide_eq_true_2, Hj by done. simpl. split; [done|].
  unfold marker_part. destruct (marker cfg a) as [|c m] eqn:E.
  - exfalso. revert Hm. apply (bool_decide_unpack _). by vm_compute.
  - simpl truthy. cbv iota. by rewrite <-!app_assoc.
Qed.
End formatter_facts.

(** X5: a call of [_format_annotation] changes nothing of the annotation
    but the white space of its text: date, chapter, color and note stay as
    they are and the text keeps its words. *)
Theorem format_annotation_keeps_words cfg a indent :
  let a' := (_format_annotation cfg a indent).2 in
  date a' = date a ∧ chapter a' = chapter a ∧ color a' = color a
  ∧ note a' = note a ∧ split (text a') = split (text a).
Proof.
  cbv zeta. rewrite format_annotation_snd.
  destruct (_ && _); simpl; [|done].
  split_and!; try done. apply split_join, split_words.
Qed.

(** X6: with a heading token as marker and [join_titles] set, the text
    emitted holds no line feed and no white space at its ends, so the
    heading keeps to one line: with an indent and decorations without
    line feed, the first line of the block holds the marker, the whole
    text and the decorations. *)
Theorem format_annotation_heading_one_line cfg a indent :
  marker cfg a ∈ heading_tokens →
  join_titles cfg = true →
  single_line indent →
  single_line (decorations cfg a) →
  let r := _format_annotation cfg a indent in
  single_line (text r.2) ∧ stripped (text r.2) ∧
  first_line r.1
    = indent ++ py "- " ++ marker cfg a ++ py " " ++ text r.2
        ++ decorations cfg a.
Proof.
  intros Hm Hj Hi Hd. cbv zeta.
  destruct (format_annotation_join_titles_eq cfg a indent Hm Hj) as [Hsnd Hfst].
  rewrite Hfst, Hsnd. simpl text.
  assert (single_line (join (py " ") (split (text a)))) as Hs
    by apply join_split_single_line.
  split; [done|]. split; [apply join_words_stripped, split_words|].
  assert (single_line (indent ++ py "- " ++ marker cfg a ++ py " "
                         ++ join (py " ") (split (text a))
                         ++ decorations cfg a)) as Hline.
  { rewrite !single_line_app. split_and!; try done.
    - apply single_line_py_dash.
    - by apply heading_token_single_line.
    - by_evaluation. }
  unfold note_part. destruct (truthy (note a)).
  - replace (indent ++ py "- " ++ marker cfg a ++ py " "
               ++ join (py " ") (split (text a)) ++ decorations cfg a
               ++ nl ++ note_line cfg a indent)
      with ((indent ++ py "- " ++ marker cfg a ++ py " "
               ++ join (py " ") (split (text a)) ++ decorations cfg a)
              ++ nl ++ note_line cfg a indent)
      by (by rewrite <-!app_assoc).
    by apply first_line_app_nl.
  - rewrite app_nil_r. by apply first_line_single.
Qed.

Lemma format_annotation_heading_one_line_witness :
  first_line (_format_annotation sample_config fox_yellow (py "    ")).1
  = py "    - ## The quick brown fox".
Proof.
  destruct (format_annotation_heading_one_line sample_config fox_yellow
              (py "    ")) as (_ & _ & H);
    [by_evaluation|done|by_evaluation|by_evaluation|].
  rewrite H. by vm_compute.
Defined.

(** ** The grouping renderer and the assembler, further *)

Section renderer_facts.
Variable rt : Runtime.
Implicit Types (cfg : Config) (a : Annotation) (indent : str).
Implicit Types (annotations : list Annotation) (its : list item).

Lemma hasattr_false_getattr k :
  (∀ a, hasattr rt a k = false) → getattr rt k = None.
Proof.
  intros H. specialize (H no_note). unfold hasattr in H.
  by destruct (getattr rt k).
Qed.

(** The keys after one that is not an attribute are not read. *)
Lemma group_and_dump_skips_rest cfg bad rest ks :
  getattr rt bad = None →
  ∀ annotations indent,
    annotations ≠ [] →
    group_and_dump rt cfg (ks ++ bad :: rest) annotations indent
    = group_and_dump rt cfg ks annotations indent.
Proof.
  intros Hbad.
  induction ks as [|k ks IH]; intros annotations indent Hne;
    (destruct annotations as [|a0 annotations]; [done|]).
  { rewrite app_nil_l, group_and_dump_cons_keys. by rewrite Hbad. }
  rewrite <-app_comm_cons, !group_and_dump_cons_keys.
  destruct (getattr rt k) as [attr|]; [|done].
  destruct (negb (orderable attr) && _); [done|].
  destruct (negb (hashable attr)); [done|].
  rewrite (mapM_result_ext _
             (λ v, group_and_dump rt cfg ks
                     (filter (λ a, shown_of attr a = v) (a0 :: annotations))
                     (indent ++ py "    "))); [done|].
  apply Forall_forall. intros v Hv. apply IH. by apply group_nonempty.
Qed.

(** The renderer reads the configuration through the line formatter
    only. *)
Lemma group_and_dump_formatter cfg1 cfg2 group_keys :
  (∀ a indent, _format_annotation cfg1 a indent = _format_annotation cfg2 a indent) →
  ∀ annotations indent,
    group_and_dump rt cfg1 group_keys annotations indent
    = group_and_dump rt cfg2 group_keys annotations indent.
Proof.
  intros Hfmt.
  induction group_keys as [|k rest IH]; intros annotations indent.
  { rewrite !group_and_dump_nil_keys. f_equal.
    apply Forall_fmap_ext, Forall_forall. intros a _. by rewrite Hfmt. }
  destruct annotations as [|a0 annotations]; [done|].
  rewrite !group_and_dump_cons_keys.
  destruct (getattr rt k) as [attr|].
  - destruct (negb (orderable attr) && _); [done|].
    destruct (negb (hashable attr)); [done|].
    rewrite (mapM_result_ext _
               (λ v, group_and_dump rt cfg2 rest
                       (filter (λ a, shown_of attr a = v) (a0 :: annotations))
                       (indent ++ py "    "))); [done|].
    apply Forall_forall. intros v _. apply IH.
  - rewrite !group_and_dump_nil_keys. f_equal.
    apply Forall_fmap_ext, Forall_forall. intros a _. by rewrite Hfmt.
Qed.

Lemma outline_nonempty group_keys annotations indent :
  annotations ≠ [] → outline rt group_keys annotations indent ≠ [].
Proof.
  intros Hne Hnil.
  pose proof (outline_blocks rt group_keys annotations indent) as Hb.
  rewrite Hnil in Hb. symmetry in Hb. by apply Permutation_nil_r in Hb.
Qed.

Lemma group_and_dump_nonempty cfg group_keys annotations indent out :
  annotations ≠ [] →
  group_and_dump rt cfg group_keys annotations indent = Ok out →
  out ≠ [].
Proof.
  intros Hne Hout%group_and_dump_outline. rewrite Hout.
  intros Hnil%fmap_nil_inv. by eapply outline_nonempty.
Qed.

Lemma spaces_four n : spaces (4 * S n) = py "    " ++ spaces (4 * n).
Proof.
  unfold spaces. replace (4 * S n) with (4 + 4 * n) by lia.
  by rewrite replicate_add.
Qed.

(** Every item of an outline is rendered at the indent of the outline or
    some levels deeper, as a list item. *)
Lemma outline_indented cfg group_keys :
  ∀ annotations indent it,
    it ∈ outline rt group_keys annotations indent →
    ∃ n rest, n ≤ length group_keys
              ∧ render cfg it = indent ++ spaces (4 * n) ++ py "- " ++ rest.
Proof.
  assert (∀ annotations indent it,
            it ∈ (λ a, Block a indent) <$> annotations →
            ∃ rest, render cfg it = indent ++ spaces (4 * 0) ++ py "- " ++ rest)
    as Hleaf.
  { intros l i it (a & -> & _)%list_elem_of_fmap. unfold render.
    rewrite format_annotation_fst. by eexists. }
  induction group_keys as [|k rest IH]; intros annotations indent it;
    simpl outline; simpl length.
  { intros (r & ?)%Hleaf. exists 0, r. split; [lia|done]. }
  destruct (getattr rt k) as [attr|].
  - rewrite list_elem_of_join.
    intros (l & Hit & (v & -> & _)%list_elem_of_fmap).
    apply elem_of_cons in Hit as [->|Hit].
    + exists 0. eexists. split; [lia|]. simpl. unfold heading. reflexivity.
    + apply IH in Hit as (n & r & Hn & ->).
      exists (S n), r. split; [lia|].
      by rewrite spaces_four, <-!app_assoc.
  - intros (r & ?)%Hleaf. exists 0, r. split; [lia|done].
Qed.

Lemma join_cons_nonempty sep w ws :
  ws ≠ [] → join sep (w :: ws) = w ++ sep ++ join sep ws.
Proof. by destruct ws. Qed.
End renderer_facts.

(** X7: grouping stops at the first key for which [hasattr] fails: on a
    non-empty list the keys that follow it are not read, at whatever
    depth it stands, so that the call returns or raises as it does with
    the keys before it alone. *)
Theorem group_and_dump_stops_at_unknown_key rt cfg ks bad rest annotations
    indent :
  annotations ≠ [] →
  (∀ a, hasattr rt a bad = false) →
  group_and_dump rt cfg (ks ++ bad :: rest) annotations indent
  = group_and_dump rt cfg ks annotations indent.
Proof.
  intros Hne Hbad%hasattr_false_getattr.
  by apply group_and_dump_skips_rest.
Qed.

Lemma group_and_dump_stops_at_unknown_key_witness :
  group_and_dump sample_runtime sample_config
    ([py "chapter"] ++ py "all" :: [py "__dict__"])
    [fox_green; fox_yellow; plain_note; no_note] []
  = group_and_dump sample_runtime sample_config [py "chapter"]
      [fox_green; fox_yellow; plain_note; no_note] [].
Proof.
  by apply (group_and_dump_stops_at_unknown_key sample_runtime sample_config
              [py "chapter"] (py "all") [py "__dict__"]).
Defined.

(** X8: every entry [group_and_dump] returns is a list item at the indent
    of the call or a number of levels of four spaces deeper, at most one
    level for each key: it starts with the indent, the spaces and "- ". *)
Theorem group_and_dump_indented rt cfg group_keys annotations indent out line :
  group_and_dump rt cfg group_keys annotations indent = Ok out →
  line ∈ out →
  ∃ n rest, n ≤ length group_keys
            ∧ line = indent ++ spaces (4 * n) ++ py "- " ++ rest.
Proof.
  intros Hout%group_and_dump_outline Hline. rewrite Hout in Hline.
  apply list_elem_of_fmap in Hline as (it & -> & Hit).
  by eapply outline_indented.
Qed.

Lemma group_and_dump_indented_witness :
  ∃ n rest, n ≤ 2 ∧ py "        - t" = [] ++ spaces (4 * n) ++ py "- " ++ rest.
Proof.
  eapply (group_and_dump_indented sample_runtime sample_config
            [py "chapter"; py "date"]
            [fox_green; fox_yellow; plain_note; no_note] []).
  - by vm_compute.
  - apply (bool_decide_unpack _). by vm_compute.
Defined.

(** X9: [generate_markdown] returns no document exactly when the list of
    annotations is empty; on a non-empty list it returns a document when
    the values of every group key that is an attribute order, as those of
    the five fields do. *)
Theorem generate_markdown_none rt cfg metadata annotations :
  (generate_markdown rt cfg metadata annotations = Ok None
   ↔ annotations = []) ∧
  (annotations ≠ [] →
   Forall (orders_key rt) (group_keys_of cfg) →
   ∃ md, generate_markdown rt cfg metadata annotations = Ok (Some md)).
Proof.
  destruct annotations as [|a0 annotations]; [done|].
  rewrite generate_markdown_cons. split.
  - split; [|done].
    by destruct (group_and_dump rt cfg _ _ _).
  - intros _ Hks.
    rewrite group_and_dump_returns by done. by eexists.
Qed.

(** A group key whose values do not order makes the assembler raise. *)
Example generate_markdown_type_error :
  generate_markdown sample_runtime
    {| include_metadata := true; append_file := false;
       include_date_in_notes := false; include_chapter_in_notes := false;
       group_by := KeyStr (py "__dict__"); color_map := ∅;
       join_titles := true; dump_stdout := false;
       html_parser := py "html.parser" |}
    {| title := py "A Book"; author := py "An Author";
       source := py "Unspecified"; imported := py "now" |} [no_note]
  = Raise TypeError.
Proof. by vm_compute. Qed.

(** X10: with [include_metadata] set the assembler does what it does
    without the metadata block, raising the same exception if it raises,
    and puts four lines in front of the document: title, author and
    source in double quotes and the import time, each under its key. *)
Theorem generate_markdown_metadata_block rt cfg metadata annotations :
  annotations ≠ [] →
  include_metadata cfg = true →
  generate_markdown rt cfg metadata annotations
  = match generate_markdown rt (without_metadata cfg) metadata annotations with
    | Ok (Some body) =>
        Ok (Some (py "- title:: " ++ dq ++ title metadata ++ dq ++ nl
                    ++ py "  author:: " ++ dq ++ author metadata ++ dq ++ nl
                    ++ py "  source:: " ++ dq ++ source metadata ++ dq ++ nl
                    ++ py "  imported:: " ++ imported metadata ++ nl
                    ++ body))
    | other => other
    end.
Proof.
  intros Hne Hmd.
  destruct annotations as [|a0 annotations]; [done|].
  rewrite !generate_markdown_cons. rewrite Hmd.
  change (group_keys_of (without_metadata cfg)) with (group_keys_of cfg).
  change (include_metadata (without_metadata cfg)) with false.
  rewrite (group_and_dump_formatter rt (without_metadata cfg) cfg) by done.
  destruct (group_and_dump rt cfg _ _ _) as [out|ex] eqn:Hout; [|done].
  apply group_and_dump_nonempty in Hout; [|done].
  unfold mbind, result_bind. do 2 f_equal. rewrite app_nil_l.
  change ([?a; ?b; ?c; ?d] ++ ?l) with (a :: b :: c :: d :: l).
  rewrite !join_cons_nonempty by done.
  by rewrite <-!app_assoc.
Qed.

Lemma generate_markdown_metadata_block_witness :
  generate_markdown sample_runtime sample_config
    {| title := py "A Book"; author := py "An Author";
       source := py "Unspecified"; imported := py "now" |} [no_note]
  = Ok (Some (py "- title:: " ++ dq ++ py "A Book" ++ dq ++ nl
                ++ py "  author:: " ++ dq ++ py "An Author" ++ dq ++ nl
                ++ py "  source:: " ++ dq ++ py "Unspecified" ++ dq ++ nl
                ++ py "  imported:: now" ++ nl
                ++ py "- # One" ++ nl ++ py "    - ## 1 May" ++ nl
                ++ py "        - t")).
Proof.
  rewrite (generate_markdown_metadata_block sample_runtime sample_config
             {| title := py "A Book"; author := py "An Author";
                source := py "Unspecified"; imported := py "now" |}
             [no_note]); [|done|done].
  by vm_compute.
Defined.

(** ** Output and the message loop, further *)

Section output_facts.
Variable rt : Runtime.
Variable sanitize : str → str.
Implicit Types (cfg : Config) (w : World) (fname : str) (md : option str).
Implicit Types (r : result ()).

Lemma print_text_inv s w w' r :
  print_text rt s w = (w', r) →
  files w' = files w ∧
  (r = Ok () → stdout w' = stdout w ++ [s]) ∧
  (∀ ex, r = Raise ex → w' = w).
Proof.
  unfold print_text.
  destruct (is_ascii s || stdout_encodes rt s); intros [= <- <-]; done.
Qed.

(** What a call of [dump_markdown] changes, however it ends. *)
Lemma dump_markdown_inv cfg md fname w w' r :
  dump_markdown rt sanitize cfg md fname w = (w', r) →
  (∀ f, f ≠ sanitize fname → files w' !! f = files w !! f) ∧
  (dump_stdout cfg = true → files w' = files w) ∧
  (∀ ex, r = Raise ex → stdout w' = stdout w) ∧
  (r = Ok () →
   ∃ line,
     stdout w' = stdout w ++ [line] ∧
     (dump_stdout cfg = false →
      ∃ doc,
        md = Some doc ∧
        files w' !! sanitize fname
          = Some (if append_file cfg
                  then default [] (files w !! sanitize fname) ++ nl ++ doc
                  else doc))).
Proof.
  unfold dump_markdown. destruct (dump_stdout cfg).
  { intros (Hfiles & Hok & Hraise)%print_text_inv.
    split; [by rewrite Hfiles|]. split; [done|].
    split; [by intros ex ->%Hraise|].
    intros Hr. eexists. by split; [apply Hok|]. }
  set (w1 := if append_file cfg then _ else _).
  assert (stdout w1 = stdout w) as Hstdout.
  { unfold w1. by destruct (append_file cfg). }
  assert (∀ f, f ≠ sanitize fname → files w1 !! f = files w !! f) as Hother.
  { intros f Hf. unfold w1, write_file, open_file.
    destruct (append_file cfg); simpl; by rewrite !lookup_insert_ne. }
  destruct md as [doc|]; [|by intros [= <- <-]].
  unfold write_text.
  destruct (is_ascii doc || file_encodes rt doc); [|by intros [= <- <-]].
  intros (Hfiles & Hok & Hraise)%print_text_inv.
  split.
  { intros f Hf. rewrite Hfiles. unfold write_file. simpl.
    rewrite lookup_insert_ne by done. by apply Hother. }
  split; [done|]. split; [by intros ex ->%Hraise|].
  intros Hr. eexists. split; [rewrite (Hok Hr); simpl; by rewrite Hstdout|].
  intros _. exists doc. split; [done|]. rewrite Hfiles.
  unfold w1, write_file, open_file.
  destruct (append_file cfg); simpl; rewrite !lookup_insert_eq; simpl;
    [by rewrite <-app_assoc|done].
Qed.

Lemma process_messages_app_eq cfg ms1 ms2 w :
  process_messages rt sanitize cfg (ms1 ++ ms2) w
  = match process_messages rt sanitize cfg ms1 w with
    | (w', Ok _) => process_messages rt sanitize cfg ms2 w'
    | (w', Raise ex) => (w', Raise ex)
    end.
Proof.
  revert w. induction ms1 as [|[soup now] ms1 IH]; intros w; simpl; [done|].
  destruct (_extract_annotations_from_html soup now)
    as [[metadata annotations]|ex]; [|done].
  destruct (generate_markdown rt cfg metadata annotations) as [md|ex]; [|done].
  destruct (dump_markdown rt sanitize cfg md _ w) as [w' [[]|ex]]; [|done].
  apply IH.
Qed.

Lemma process_messages_cons cfg soup now messages w :
  process_messages rt sanitize cfg ((soup, now) :: messages) w
  = match _extract_annotations_from_html soup now with
    | Raise ex => (w, Raise ex)
    | Ok (metadata, annotations) =>
        match generate_markdown rt cfg metadata annotations with
        | Raise ex => (w, Raise ex)
        | Ok md =>
            match dump_markdown rt sanitize cfg md (notes_file metadata) w with
            | (w', Ok _) => process_messages rt sanitize cfg messages w'
            | (w', Raise ex) => (w', Raise ex)
            end
        end
    end.
Proof. done. Qed.

(** A message at which the run ends. *)
Lemma process_messages_one_raise cfg soup now w w' ex :
  process_messages rt sanitize cfg [(soup, now)] w = (w', Raise ex) →
  stdout w' = stdout w ∧
  (∀ metadata annotations,
     _extract_annotations_from_html soup now = Ok (metadata, annotations) →
     ∀ f, f ≠ sanitize (notes_file metadata) → files w' !! f = files w !! f) ∧
  ((∃ ex', _extract_annotations_from_html soup now = Raise ex') → w' = w).
Proof.
  rewrite process_messages_cons.
  destruct (_extract_annotations_from_html soup now)
    as [[metadata annotations]|ex1].
  - destruct (generate_markdown rt cfg metadata annotations) as [md|ex2].
    + destruct (dump_markdown rt sanitize cfg md _ w) as [w1 [[]|ex3]] eqn:Hdump;
        [done|].
      intros [= <- <-].
      apply dump_markdown_inv in Hdump as (Hother & _ & Hraise & _).
      split; [by eapply Hraise|]. split; [|by intros [? ?]].
      by intros ?? [= <- <-].
    + intros [= <- <-]. split; [done|]. split; [done|]. by intros [? ?].
  - intros [= <- <-]. done.
Qed.

(** A message that is processed, in file mode. *)
Lemma process_messages_one_ok cfg soup now w w' :
  dump_stdout cfg = false →
  process_messages rt sanitize cfg [(soup, now)] w = (w', Ok ()) →
  ∃ metadata annotations doc,
    _extract_annotations_from_html soup now = Ok (metadata, annotations) ∧
    annotations ≠ [] ∧
    generate_markdown rt cfg metadata annotations = Ok (Some doc) ∧
    files w' !! sanitize (notes_file metadata)
      = Some (if append_file cfg
              then default [] (files w !! sanitize (notes_file metadata))
                     ++ nl ++ doc
              else doc) ∧
    (∀ f, f ≠ sanitize (notes_file metadata) → files w' !! f = files w !! f) ∧
    length (stdout w') = S (length (stdout w)).
Proof.
  intros Hstd. rewrite process_messages_cons.
  destruct (_extract_annotations_from_html soup now)
    as [[metadata annotations]|ex1]; [|done].
  destruct (generate_markdown rt cfg metadata annotations) as [md|ex2] eqn:Hmd;
    [|done].
  destruct (dump_markdown rt sanitize cfg md _ w) as [w1 [[]|ex3]] eqn:Hdump;
    [|done].
  intros [= <-].
  apply dump_markdown_inv in Hdump as (Hother & _ & _ & Hok).
  destruct (Hok eq_refl) as (line & Hline & Hdoc).
  destruct (Hdoc Hstd) as (doc & -> & Hfile).
  exists metadata, annotations, doc. split; [done|].
  split; [by intros ->|]. split; [done|]. split; [done|]. split; [done|].
  rewrite Hline, length_app. simpl. lia.
Qed.

(** A run that returns, in file mode. *)
Lemma process_messages_ok cfg messages :
  dump_stdout cfg = false →
  ∀ w w',
    process_messages rt sanitize cfg messages w = (w', Ok ()) →
    length (stdout w') = length (stdout w) + length messages ∧
    (∀ f, is_Some (files w !! f) → is_Some (files w' !! f)) ∧
    Forall (λ m, ∃ metadata annotations,
                 _extract_annotations_from_html m.1 m.2
                   = Ok (metadata, annotations)
                 ∧ annotations ≠ []
                 ∧ is_Some (files w' !! sanitize (notes_file metadata)))
           messages.
Proof.
  intros Hstd. induction messages as [|[soup now] ms IH]; intros w w'.
  { intros [= <-]. split; [simpl; lia|]. done. }
  change ((soup, now) :: ms) with ([(soup, now)] ++ ms).
  rewrite process_messages_app_eq.
  destruct (process_messages rt sanitize cfg [(soup, now)] w)
    as [w1 [[]|ex]] eqn:Hone; [|done].
  intros (Hlen & Hmono & Hfiles)%IH.
  apply process_messages_one_ok in Hone
    as (metadata & annotations & doc & Hparse & Hne & _ & Hfile & Hother & Hout);
    [|done].
  split; [rewrite Hlen, Hout, length_app; simpl; lia|].
  assert (∀ f, is_Some (files w !! f) → is_Some (files w1 !! f)) as Hmono1.
  { intros f Hf. destruct (decide (f = sanitize (notes_file metadata)))
      as [->|Hneq]; [by rewrite Hfile|by rewrite Hother]. }
  split; [by intros f Hf; apply Hmono, Hmono1|].
  constructor; [|done]. exists metadata, annotations. split; [done|].
  split; [done|]. apply Hmono. by rewrite Hfile.
Qed.
(** In stdout mode the loop changes no file. *)
Lemma process_messages_stdout_files cfg messages w :
  dump_stdout cfg = true →
  files (process_messages rt sanitize cfg messages w).1 = files w.
Proof.
  intros Hstd. revert w.
  induction messages as [|[soup now] messages IH]; intros w; [done|].
  rewrite process_messages_cons.
  destruct (_extract_annotations_from_html soup now)
    as [[metadata annotations]|ex]; [|done].
  destruct (generate_markdown rt cfg metadata annotations) as [md|ex]; [|done].
  destruct (dump_markdown rt sanitize cfg md _ w) as [w1 [[]|ex]] eqn:Hdump;
    apply dump_markdown_inv in Hdump as (_ & Hfiles & _).
  - rewrite IH. by apply Hfiles.
  - by apply Hfiles.
Qed.
End output_facts.

(** X11: whatever [dump_markdown] is given and however it ends, it
    changes no file but the one under the sanitized name, and none at all
    in stdout mode. When it raises, nothing was printed. When it returns,
    it printed one entry, and in file mode it was given a document, which
    the file now holds: alone in overwrite mode, after the previous
    content and a line feed in append mode. *)
Theorem dump_markdown_frame rt sanitize cfg md fname w w' r :
  dump_markdown rt sanitize cfg md fname w = (w', r) →
  (∀ f, f ≠ sanitize fname → files w' !! f = files w !! f) ∧
  (dump_stdout cfg = true → files w' = files w) ∧
  (∀ ex, r = Raise ex → stdout w' = stdout w) ∧
  (r = Ok () →
   ∃ line,
     stdout w' = stdout w ++ [line] ∧
     (dump_stdout cfg = false →
      ∃ doc,
        md = Some doc ∧
        files w' !! sanitize fname
          = Some (if append_file cfg
                  then default [] (files w !! sanitize fname) ++ nl ++ doc
                  else doc))).
Proof. apply dump_markdown_inv. Qed.

(** A document with the euro sign where the files are written in
    Latin-1: the file is opened, and with that emptied, before the write
    raises. *)
Lemma dump_markdown_frame_witness :
  (∀ f, f ≠ id (py "a.md") →
        files (mkWorld [] {[ py "a.md" := []; py "b.md" := py "kept" ]}) !! f
        = files (mkWorld [] {[ py "a.md" := py "old"; py "b.md" := py "kept" ]})
            !! f) ∧
  (dump_stdout sample_config = true →
   files (mkWorld [] {[ py "a.md" := []; py "b.md" := py "kept" ]})
   = files (mkWorld [] {[ py "a.md" := py "old"; py "b.md" := py "kept" ]})) ∧
  (∀ ex, @Raise () UnicodeEncodeError = Raise ex →
         stdout (mkWorld [] {[ py "a.md" := []; py "b.md" := py "kept" ]})
         = stdout
             (mkWorld [] {[ py "a.md" := py "old"; py "b.md" := py "kept" ]})) ∧
  (Raise UnicodeEncodeError = Ok () →
   ∃ line,
     stdout (mkWorld [] {[ py "a.md" := []; py "b.md" := py "kept" ]})
     = stdout (mkWorld [] {[ py "a.md" := py "old"; py "b.md" := py "kept" ]})
         ++ [line] ∧
     (dump_stdout sample_config = false →
      ∃ doc,
        Some [8364%N] = Some doc ∧
        files (mkWorld [] {[ py "a.md" := []; py "b.md" := py "kept" ]})
          !! id (py "a.md")
        = Some (if append_file sample_config
                then default []
                       (files
                          (mkWorld []
                             {[ py "a.md" := py "old"; py "b.md" := py "kept" ]})
                          !! id (py "a.md")) ++ nl ++ doc
                else doc))).
Proof.
  apply (dump_markdown_frame latin1_runtime id sample_config (Some [8364%N])
           (py "a.md")
           (mkWorld [] {[ py "a.md" := py "old"; py "b.md" := py "kept" ]})
           (mkWorld [] {[ py "a.md" := []; py "b.md" := py "kept" ]})
           (Raise UnicodeEncodeError)).
  by vm_compute.
Defined.

(** X12: an exception in one message ends the run there: the messages
    after it are not processed, and what the messages before it wrote and
    printed stays, but for the file of the failing message itself, which
    is opened, and emptied in overwrite mode, before a write raises. A
    message that does not parse changes nothing. *)
Theorem process_messages_abort rt sanitize cfg ms1 soup now ms2 w w1 w2 ex :
  process_messages rt sanitize cfg ms1 w = (w1, Ok ()) →
  process_messages rt sanitize cfg [(soup, now)] w1 = (w2, Raise ex) →
  process_messages rt sanitize cfg (ms1 ++ (soup, now) :: ms2) w
    = (w2, Raise ex) ∧
  stdout w2 = stdout w1 ∧
  (∀ metadata annotations,
     _extract_annotations_from_html soup now = Ok (metadata, annotations) →
     ∀ f, f ≠ sanitize (notes_file metadata) → files w2 !! f = files w1 !! f) ∧
  ((∃ ex', _extract_annotations_from_html soup now = Raise ex') → w2 = w1).
Proof.
  intros H1 H2. split.
  - rewrite process_messages_app_eq, H1.
    change ((soup, now) :: ms2) with ([(soup, now)] ++ ms2).
    by rewrite process_messages_app_eq, H2.
  - by eapply process_messages_one_raise.
Qed.

Lemma process_messages_abort_witness :
  ∃ w1 w2,
    process_messages latin1_runtime id sample_config [(sample_soup, py "now")]
      (mkWorld [] ∅) = (w1, Ok ()) ∧
    process_messages latin1_runtime id sample_config
      ([(sample_soup, py "now")]
         ++ (euro_soup, py "now") :: [(sample_soup, py "later")])
      (mkWorld [] ∅) = (w2, Raise UnicodeEncodeError) ∧
    stdout w2 = stdout w1 ∧
    files w2 !! py "A Book-Not specified-Notes.md" = Some [] ∧
    (∀ f, f ≠ py "A Book-Not specified-Notes.md" →
          files w2 !! f = files w1 !! f).
Proof.
  eexists _, _. split; [by vm_compute|].
  edestruct (process_messages_abort latin1_runtime id sample_config
               [(sample_soup, py "now")] euro_soup (py "now")
               [(sample_soup, py "later")] (mkWorld [] ∅))
    as (Hrun & Hout & Hfiles & _); [by vm_compute|by vm_compute|].
  split; [exact Hrun|]. split; [exact Hout|]. split; [by vm_compute|].
  intros f Hf. eapply Hfiles; [by vm_compute|exact Hf].
Defined.

(** X13: in file mode, a run of [process_emails] over the messages found
    that returns has printed one notice for each message and left every
    file that existed in place, and every message parsed, held at least
    one annotation and has a file under the sanitized name "title-author-
    Notes.md". *)
Theorem process_emails_all_written rt sanitize repr email_cfg cfg messages
    w w' :
  messages ≠ [] →
  dump_stdout cfg = false →
  process_emails rt sanitize repr email_cfg cfg messages w = (w', Ok ()) →
  length (stdout w') = length (stdout w) + length messages ∧
  (∀ f, is_Some (files w !! f) → is_Some (files w' !! f)) ∧
  Forall (λ m, ∃ metadata annotations,
               _extract_annotations_from_html m.1 m.2
                 = Ok (metadata, annotations)
               ∧ annotations ≠ []
               ∧ is_Some (files w' !! sanitize (notes_file metadata)))
         messages.
Proof.
  intros Hne Hstd. unfold process_emails.
  destruct messages as [|m messages]; [done|].
  by apply process_messages_ok.
Qed.

Lemma process_emails_all_written_witness :
  ∃ w',
    process_emails sample_runtime id id (mkEmailConfig [] [] [] [])
      sample_config [(sample_soup, py "now")] (mkWorld [] ∅) = (w', Ok ()) ∧
    length (stdout w') = length (@nil str) + length [(sample_soup, py "now")] ∧
    (∀ f, is_Some ((∅ : gmap str str) !! f) → is_Some (files w' !! f)) ∧
    Forall (λ m, ∃ metadata annotations,
                 _extract_annotations_from_html m.1 m.2
                   = Ok (metadata, annotations)
                 ∧ annotations ≠ []
                 ∧ is_Some (files w' !! id (notes_file metadata)))
           [(sample_soup, py "now")].
Proof.
  eexists. split; [by vm_compute|].
  apply (process_emails_all_written sample_runtime id id
           (mkEmailConfig [] [] [] []) sample_config
           [(sample_soup, py "now")] (mkWorld [] ∅)); [done|done|].
  by vm_compute.
Defined.

(** X14: in file mode, when a run returns, its last message parsed and
    held annotations, the messages before it were processed, and the file
    of the last message ends with its document: in overwrite mode it
    holds exactly the document, whatever the messages before wrote under
    the same name, in append mode the content before, a line feed and the
    document. *)
Theorem process_messages_last rt sanitize cfg messages soup now w w' :
  dump_stdout cfg = false →
  process_messages rt sanitize cfg (messages ++ [(soup, now)]) w
    = (w', Ok ()) →
  ∃ w1 metadata annotations doc,
    process_messages rt sanitize cfg messages w = (w1, Ok ()) ∧
    _extract_annotations_from_html soup now = Ok (metadata, annotations) ∧
    annotations ≠ [] ∧
    generate_markdown rt cfg metadata annotations = Ok (Some doc) ∧
    files w' !! sanitize (notes_file metadata)
      = Some (if append_file cfg
              then default [] (files w1 !! sanitize (notes_file metadata))
                     ++ nl ++ doc
              else doc).
Proof.
  intros Hstd. rewrite process_messages_app_eq.
  destruct (process_messages rt sanitize cfg messages w)
    as [w1 [[]|ex]]; [|done].
  intros (metadata & annotations & doc & Hparse & Hne & Hdoc & Hfile & _)
           %process_messages_one_ok; [|done].
  by exists w1, metadata, annotations, doc.
Qed.

Lemma process_messages_last_witness :
  ∃ w' w1 doc,
    process_messages sample_runtime id sample_config
      ([(sample_soup, py "now")] ++ [(sample_soup, py "later")])
      (mkWorld [] ∅) = (w', Ok ()) ∧
    process_messages sample_runtime id sample_config
      [(sample_soup, py "now")] (mkWorld [] ∅) = (w1, Ok ()) ∧
    generate_markdown sample_runtime sample_config
      {| title := py "A Book"; author := py "Not specified";
         source := py "Excerpt from A Book"; imported := py "later" |}
      [{| date := py "1 May"; chapter := py "One"; color := py "yellow";
          text := py "The quick"; note := [] |}] = Ok (Some doc) ∧
    files w' !! py "A Book-Not specified-Notes.md" = Some doc.
Proof.
  eexists.
  edestruct (process_messages_last sample_runtime id sample_config
               [(sample_soup, py "now")] sample_soup (py "later")
               (mkWorld [] ∅))
    as (w1 & metadata & annotations & doc & Hrun & Hparse & _ & Hdoc & Hfile);
    [done| |].
  { by vm_compute. }
  exists w1, doc. vm_compute in Hparse. injection Hparse as <- <-.
  split; [by vm_compute|]. split; [exact Hrun|]. split; [exact Hdoc|].
  exact Hfile.
Defined.

(** ** The configuration file *)

Section configuration_facts.
Implicit Types (line s : str).

(** A string is some white space followed by what [lstrip] leaves. *)
Lemma lstrip_split s :
  ∃ ws, Forall (λ c, isspace c = true) ws ∧ s = ws ++ lstrip s.
Proof.
  induction s as [|c s (ws & Hws & IH)]; [by exists []|]. simpl.
  destruct (isspace c) eqn:Hc.
  - exists (c :: ws). split; [by constructor|]. simpl. by f_equal.
  - by exists [].
Qed.

Lemma lstrip_spaces_app ws s :
  Forall (λ c, isspace c = true) ws → lstrip (ws ++ s) = lstrip s.
Proof. induction 1 as [|c ws Hc _ IH]; [done|]. simpl. by rewrite Hc. Qed.

Lemma filter_comment_insert lines1 c lines2 :
  is_comment c = true →
  filter (λ line, is_comment line = false) (lines1 ++ c :: lines2)
  = filter (λ line, is_comment line = false) (lines1 ++ lines2).
Proof.
  intros Hc. rewrite !filter_app, filter_cons_False; [done|].
  by rewrite Hc.
Qed.
End configuration_facts.

(** X15: [is_comment] holds of a line exactly when its first character
    that is not white space is "#". *)
Theorem is_comment_first_character line :
  is_comment line = true ↔
  ∃ ws rest, Forall (λ c, isspace c = true) ws ∧ line = ws ++ 35%N :: rest.
Proof.
  unfold is_comment. split.
  - destruct (lstrip_split line) as (ws & Hws & Hline).
    destruct (lstrip line) as [|c rest]; [done|].
    intros ->%N.eqb_eq. by exists ws, rest.
  - intros (ws & rest & Hws & ->). rewrite lstrip_spaces_app by done.
    done.
Qed.

(** X16: a comment line has no effect on what [read_pseudo_json] prints
    and returns, wherever it stands in the file. *)
Theorem read_pseudo_json_comment_line Json json_loads lines1 c lines2 :
  is_comment c = true →
  read_pseudo_json Json json_loads (Some (lines1 ++ c :: lines2))
  = read_pseudo_json Json json_loads (Some (lines1 ++ lines2)).
Proof.
  intros Hc. unfold read_pseudo_json. by rewrite filter_comment_insert.
Qed.

Lemma read_pseudo_json_comment_line_witness :
  read_pseudo_json str inr
    (Some ([py "{" ++ nl] ++ (py "  # the options" ++ nl) :: [py "}" ++ nl]))
  = read_pseudo_json str inr (Some ([py "{" ++ nl] ++ [py "}" ++ nl])).
Proof.
  by apply (read_pseudo_json_comment_line str inr [py "{" ++ nl]
              (py "  # the options" ++ nl) [py "}" ++ nl]).
Defined.

(** X17: with [dump_stdout] set a run of [process_emails] creates and
    changes no file, whatever the messages hold and whether or not it
    ends with an exception. *)
Theorem process_emails_stdout_no_file rt sanitize repr email_cfg cfg messages
    w :
  dump_stdout cfg = true →
  files (process_emails rt sanitize repr email_cfg cfg messages w).1 = files w.
Proof.
  intros Hstd. unfold process_emails.
  destruct messages as [|m messages];
    [|by apply process_messages_stdout_files].
  destruct (print_text rt _ w) as [w1 [[]|ex]] eqn:H1;
    apply print_text_inv in H1 as (Hfiles1 & _); [|done].
  destruct (print_text rt _ w1) as [w2 r] eqn:H2.
  apply print_text_inv in H2 as (Hfiles2 & _). simpl. congruence.
Qed.

Lemma process_emails_stdout_no_file_witness :
  files (process_emails sample_runtime id id (mkEmailConfig [] [] [] [])
           stdout_config
           [(sample_soup, py "now");
            (mkSoup [broken_elem] None None None, py "now")]
           (mkWorld [] {[ py "kept.md" := py "old" ]})).1
  = {[ py "kept.md" := py "old" ]}.
Proof.
  by apply (process_emails_stdout_no_file sample_runtime id id
              (mkEmailConfig [] [] [] []) stdout_config).
Defined.
